(** * Video handouts: frame sampling, frame selection and handout generation

    A shallow embedding of the TypeScript sources

    - [types.ts]                     (records [CapturedFrame], [HandoutStep], [HandoutData]),
    - [services/geminiService.ts]    ([processBase64Image], [HANDOUT_SCHEMA],
                                      [generateHandoutContent], [filterBestFrames]),
    - [components/FrameCapturer.tsx] ([addLog], [createFrameFromVideo], [captureFrame],
                                      [handleAutoCapture], [removeFrame]),
    - [components/HandoutDisplay.tsx] ([stepsWithImages] and the rendering of a step),

    followed by the properties proved about them.

    Modelling conventions.
    - A JavaScript [number] that holds a time is an exact rational ([Q]); the
      rounding of IEEE doubles is not part of the model.  Integer-valued
      numbers (array indices, step numbers) are [Z].
    - [undefined] and [null] results are [None].
    - Code that can throw runs in a state-and-exception monad; what the code
      does to the outside world (console, alerts, seeks of the video, calls to
      the remote model) is recorded in the state.
    - The browser and the remote model are oracles collected in an
      environment record: they are inputs of the model, never fixed by it.
    - [await]ed timers only delay; a task runs to completion in program order. *)

From Stdlib Require Import List String Ascii ZArith QArith Qround Lia Lqa DecimalString.
From stdpp Require Import gmap list strings sorting.

Open Scope Z_scope.
Set Warnings "-register-all".

(** ** JavaScript numbers, strings and arrays *)

Module Js.

(** The characters that cannot be written inside a string literal. *)
Definition nl : string := String (ascii_of_nat 10) EmptyString.
Definition dquote : string := String (ascii_of_nat 34) EmptyString.

(** [String(z)] for an integer-valued number. *)
Definition showZ (z : Z) : string := NilZero.string_of_int (Z.to_int z).

Definition showNat (n : nat) : string := showZ (Z.of_nat n).

(** [Math.floor]. *)
Definition floor (x : Q) : Z := Qfloor x.

(** [Math.trunc], used by the remainder operator. *)
Definition trunc (x : Q) : Z := if Qle_bool 0 x then Qfloor x else Qceiling x.

(** [x % y]: the remainder takes the sign of the dividend. *)
Definition rem (x y : Q) : Q := (x - y * inject_Z (trunc (x / y)))%Q.

(** [s.padStart(2, '0')]. *)
Definition padStart2 (s : string) : string :=
  match String.length s with
  | O => "00"%string
  | S O => ("0" ++ s)%string
  | _ => s
  end.

(** [x.toFixed(1)]: the nearest multiple of one tenth, the larger one on a
    tie, written with one decimal; a negative [x] is written as ["-"] followed
    by the digits of [-x].  (From 1e21 on JavaScript switches to exponent
    notation; times of a video stay far below.) *)
Definition toFixed1_nonneg (x : Q) : string :=
  let n := Qfloor (x * 10 + (1 # 2))%Q in
  (showZ (n / 10) ++ "." ++ showZ (n mod 10))%string.

Definition toFixed1 (x : Q) : string :=
  if Qle_bool 0 x then toFixed1_nonneg x
  else ("-" ++ toFixed1_nonneg (- x)%Q)%string.

(** [a[i]] for an integer [i]: [undefined] outside [0 <= i < a.length]. *)
Definition index {A : Type} (a : list A) (i : Z) : option A :=
  if 0 <=? i then a !! Z.to_nat i else None.

(** [a.slice(-3)]: the last three elements (all of them when there are fewer). *)
Definition sliceLast3 {A : Type} (a : list A) : list A :=
  drop (length a - 3)%nat a.

(** [a.filter(x => x !== undefined)], with the survivors unwrapped. *)
Fixpoint filterDefined {A : Type} (a : list (option A)) : list A :=
  match a with
  | [] => []
  | Some x :: rest => x :: filterDefined rest
  | None :: rest => filterDefined rest
  end.

(** [a.sort(compare)]: the stable sort of ECMAScript (2019 and later).  For a
    comparator that orders the elements consistently the sorted array is
    determined: ascending, elements that compare equal in their original
    order.  It is computed here by insertion from the right. *)
Fixpoint insertSorted {A : Type} (compare : A -> A -> Q) (x : A) (a : list A) : list A :=
  match a with
  | [] => [x]
  | y :: rest =>
      if Qle_bool (compare x y) 0 then x :: y :: rest
      else y :: insertSorted compare x rest
  end.

Definition sort {A : Type} (compare : A -> A -> Q) (a : list A) : list A :=
  foldr (insertSorted compare) [] a.

(** [s.split(',')]: the pieces between the commas; always at least one. *)
Fixpoint splitComma (s : string) : list string :=
  match s with
  | EmptyString => [EmptyString]
  | String c rest =>
      if Ascii.eqb c ","%char then EmptyString :: splitComma rest
      else match splitComma rest with
           | piece :: pieces => String c piece :: pieces
           | [] => [String c EmptyString]
           end
  end.

End Js.

(** ** The records of [types.ts] *)

Module CapturedFrame.
Record t : Type := mk {
  id : string;
  dataUrl : string;               (* Base64 image data *)
  timestamp : Q;
  originalTimeFormatted : string;
}.
End CapturedFrame.

Module HandoutStep.
Record t : Type := mk {
  stepNumber : Z;
  title : string;
  description : string;
  tips : option string;           (* tips?: string *)
}.
End HandoutStep.

Module HandoutData.
Record t : Type := mk {
  title : string;
  summary : string;
  steps : list HandoutStep.t;
}.
End HandoutData.

#[global] Instance Q_eq_dec : EqDecision Q.
Proof. solve_decision. Defined.

#[global] Instance CapturedFrame_eq_dec : EqDecision CapturedFrame.t.
Proof. solve_decision. Defined.

(** ** Effects: state and exceptions

    A computation reads and updates a state [S] and either returns a value or
    throws a JavaScript [Error], of which the model keeps the [message].  The
    state reached when the exception was thrown is kept, as in JavaScript. *)

Module Eff.

Inductive Outcome (A : Type) : Type :=
| Returned (a : A)
| Thrown (message : string).
Arguments Returned {A} a.
Arguments Thrown {A} message.

Definition M (S A : Type) : Type := S -> Outcome A * S.

Definition ret {S A : Type} (a : A) : M S A := fun s => (Returned a, s).

Definition bind {S A B : Type} (m : M S A) (k : A -> M S B) : M S B :=
  fun s =>
    match m s with
    | (Returned a, s') => k a s'
    | (Thrown e, s') => (Thrown e, s')
    end.

Definition throw {S A : Type} (message : string) : M S A :=
  fun s => (Thrown message, s).

Definition gets {S A : Type} (f : S -> A) : M S A := fun s => (Returned (f s), s).

Definition modify {S : Type} (f : S -> S) : M S unit := fun s => (Returned tt, f s).

(** [try { body } catch (err) { handler(err) }]. *)
Definition tryCatch {S A : Type} (body : M S A) (handler : string -> M S A) : M S A :=
  fun s =>
    match body s with
    | (Returned a, s') => (Returned a, s')
    | (Thrown e, s') => handler e s'
    end.

(** [try { body } finally { finalizer }]: the finalizer runs either way, and
    the outcome of the body stands unless the finalizer itself throws. *)
Definition tryFinally {S A : Type} (body : M S A) (finalizer : M S unit) : M S A :=
  fun s =>
    match body s with
    | (r, s') =>
        match finalizer s' with
        | (Returned _, s'') => (r, s'')
        | (Thrown e, s'') => (Thrown e, s'')
        end
    end.

Declare Scope eff_scope.
Delimit Scope eff_scope with eff.
Notation "x <- m ;; k" := (bind m (fun x => k))
  (at level 100, m at next level, right associativity) : eff_scope.
Notation "m ;; k" := (bind m (fun _ => k))
  (at level 100, right associativity) : eff_scope.

End Eff.

(** ** JSON values and [JSON.parse] *)

Module Json.
Local Open Scope string_scope.
Local Open Scope Z_scope.

Inductive value : Type :=
| Null
| Bool (b : bool)
| Number (q : Q)
| Str (s : string)
| Array (items : list value)
| Object (members : list (string * value)).

Definition code (c : ascii) : Z := Z.of_nat (nat_of_ascii c).

Definition isWhitespace (c : ascii) : bool :=
  (code c =? 32) || (code c =? 9) || (code c =? 10) || (code c =? 13).

Fixpoint skipWhitespace (s : string) : string :=
  match s with
  | String c rest => if isWhitespace c then skipWhitespace rest else s
  | EmptyString => s
  end.

Definition digitValue (c : ascii) : option Z :=
  if (48 <=? code c) && (code c <=? 57) then Some (code c - 48) else None.

Definition hexValue (c : ascii) : option Z :=
  if (48 <=? code c) && (code c <=? 57) then Some (code c - 48)
  else if (97 <=? code c) && (code c <=? 102) then Some (code c - 87)
  else if (65 <=? code c) && (code c <=? 70) then Some (code c - 55)
  else None.

(** A maximal run of decimal digits: its value on top of [acc], the number
    of digits read, and what follows. *)
Fixpoint readDigits (acc : Z) (count : nat) (s : string) : Z * nat * string :=
  match s with
  | String c rest =>
      match digitValue c with
      | Some d => readDigits (acc * 10 + d) (S count) rest
      | None => (acc, count, s)
      end
  | EmptyString => (acc, count, s)
  end.

(** The integer part of a number: a single [0], or a digit from 1 to 9
    followed by digits. *)
Definition readInt (s : string) : option (Z * string) :=
  match s with
  | String c rest =>
      match digitValue c with
      | Some 0 => Some (0, rest)
      | Some d => let '(v, _, r) := readDigits d 1 rest in Some (v, r)
      | None => None
      end
  | EmptyString => None
  end.

(** The optional fraction: its digits as an integer and how many there are. *)
Definition readFraction (s : string) : option (Z * nat * string) :=
  match s with
  | String "." rest =>
      match readDigits 0 0 rest with
      | (_, O, _) => None
      | r => Some r
      end
  | _ => Some (0, O, s)
  end.

Definition readExponentDigits (s : string) : option (Z * string) :=
  match readDigits 0 0 s with
  | (_, O, _) => None
  | (v, _, r) => Some (v, r)
  end.

Definition readExponent (s : string) : option (Z * string) :=
  match s with
  | String c rest =>
      if (code c =? 101) || (code c =? 69) then
        match rest with
        | String "-" r =>
            match readExponentDigits r with
            | Some (v, r') => Some (- v, r')
            | None => None
            end
        | String "+" r => readExponentDigits r
        | _ => readExponentDigits rest
        end
      else Some (0, s)
  | EmptyString => Some (0, s)
  end.

Definition parseNumber (s : string) : option (Q * string) :=
  let '(negative, s1) :=
    match s with
    | String "-" r => (true, r)
    | _ => (false, s)
    end in
  match readInt s1 with
  | None => None
  | Some (int, s2) =>
      match readFraction s2 with
      | None => None
      | Some (frac, fracLen, s3) =>
          match readExponent s3 with
          | None => None
          | Some (exponent, s4) =>
              let magnitude :=
                ((inject_Z int + inject_Z frac / inject_Z (10 ^ Z.of_nat fracLen))
                 * Qpower 10 exponent)%Q in
              Some (if negative then (- magnitude)%Q else magnitude, s4)
          end
      end
  end.

Definition byte (n : Z) : ascii := ascii_of_nat (Z.to_nat n).

(** The code unit of a [\uXXXX] escape, as UTF-8 bytes (a surrogate is
    encoded on its own). *)
Definition encodeUnit (n : Z) : string :=
  if n <? 128 then String (byte n) EmptyString
  else if n <? 2048 then
    String (byte (192 + n / 64)) (String (byte (128 + n mod 64)) EmptyString)
  else
    String (byte (224 + n / 4096))
      (String (byte (128 + (n / 64) mod 64)) (String (byte (128 + n mod 64)) EmptyString)).

Definition escapeChar (c : ascii) : option ascii :=
  if code c =? 34 then Some c
  else if code c =? 92 then Some c
  else if code c =? 47 then Some c
  else if code c =? 98 then Some (byte 8)
  else if code c =? 102 then Some (byte 12)
  else if code c =? 110 then Some (byte 10)
  else if code c =? 114 then Some (byte 13)
  else if code c =? 116 then Some (byte 9)
  else None.

(** The characters of a string literal after its opening quote, up to the
    closing quote. *)
Fixpoint parseStringBody (s : string) : option (string * string) :=
  match s with
  | EmptyString => None
  | String c rest =>
      if code c =? 34 then Some (EmptyString, rest)
      else if code c =? 92 then
        match rest with
        | String e rest' =>
            if code e =? 117 then
              match rest' with
              | String h1 (String h2 (String h3 (String h4 rest''))) =>
                  match hexValue h1, hexValue h2, hexValue h3, hexValue h4 with
                  | Some a, Some b, Some c', Some d =>
                      match parseStringBody rest'' with
                      | Some (body, r) =>
                          Some (encodeUnit (((a * 16 + b) * 16 + c') * 16 + d) ++ body, r)
                      | None => None
                      end
                  | _, _, _, _ => None
                  end
              | _ => None
              end
            else
              match escapeChar e with
              | Some x =>
                  match parseStringBody rest' with
                  | Some (body, r) => Some (String x body, r)
                  | None => None
                  end
              | None => None
              end
        | EmptyString => None
        end
      else if code c <? 32 then None
      else
        match parseStringBody rest with
        | Some (body, r) => Some (String c body, r)
        | None => None
        end
  end.

(** [stripPrefix p s]: what follows [p] in [s]. *)
Fixpoint stripPrefix (p s : string) : option string :=
  match p, s with
  | EmptyString, _ => Some s
  | String a p', String b s' => if Ascii.eqb a b then stripPrefix p' s' else None
  | String _ _, EmptyString => None
  end.

Definition literal (word : string) (v : value) (s : string) : option (value * string) :=
  match stripPrefix word s with
  | Some rest => Some (v, rest)
  | None => None
  end.

(** Recursive descent; [fuel] bounds the depth of the recursion. *)
Fixpoint parseValue (fuel : nat) (s : string) {struct fuel} : option (value * string) :=
  match fuel with
  | O => None
  | S fuel' =>
      match skipWhitespace s with
      | EmptyString => None
      | String c rest =>
          if code c =? 91 then
            match skipWhitespace rest with
            | String "]" r => Some (Array [], r)
            | _ =>
                match parseElements fuel' rest with
                | Some (items, r) => Some (Array items, r)
                | None => None
                end
            end
          else if code c =? 123 then
            match skipWhitespace rest with
            | String "}" r => Some (Object [], r)
            | _ =>
                match parseMembers fuel' rest with
                | Some (members, r) => Some (Object members, r)
                | None => None
                end
            end
          else if code c =? 34 then
            match parseStringBody rest with
            | Some (body, r) => Some (Str body, r)
            | None => None
            end
          else if code c =? 110 then literal "null" Null (String c rest)
          else if code c =? 116 then literal "true" (Bool true) (String c rest)
          else if code c =? 102 then literal "false" (Bool false) (String c rest)
          else
            match parseNumber (String c rest) with
            | Some (q, r) => Some (Number q, r)
            | None => None
            end
      end
  end
with parseElements (fuel : nat) (s : string) {struct fuel} : option (list value * string) :=
  match fuel with
  | O => None
  | S fuel' =>
      match parseValue fuel' s with
      | None => None
      | Some (v, r) =>
          match skipWhitespace r with
          | String "," r' =>
              match parseElements fuel' r' with
              | Some (vs, r'') => Some (v :: vs, r'')
              | None => None
              end
          | String "]" r' => Some ([v], r')
          | _ => None
          end
      end
  end
with parseMembers (fuel : nat) (s : string) {struct fuel}
  : option (list (string * value) * string) :=
  match fuel with
  | O => None
  | S fuel' =>
      match skipWhitespace s with
      | String q afterQuote =>
          if code q =? 34 then
            match parseStringBody afterQuote with
            | None => None
            | Some (key, r) =>
                match skipWhitespace r with
                | String ":" r1 =>
                    match parseValue fuel' r1 with
                    | None => None
                    | Some (v, r2) =>
                        match skipWhitespace r2 with
                        | String "," r3 =>
                            match parseMembers fuel' r3 with
                            | Some (ms, r4) => Some ((key, v) :: ms, r4)
                            | None => None
                            end
                        | String "}" r3 => Some ([(key, v)], r3)
                        | _ => None
                        end
                    end
                | _ => None
                end
            end
          else None
      | EmptyString => None
      end
  end.

(** [JSON.parse(text)]: [None] where JavaScript throws a [SyntaxError]. *)
Definition parse (text : string) : option value :=
  match parseValue (2 * String.length text + 2) text with
  | Some (v, rest) =>
      match skipWhitespace rest with
      | EmptyString => Some v
      | String _ _ => None
      end
  | None => None
  end.

(** The members of an object by key; of a repeated key the last one counts. *)
Fixpoint lookupMember (key : string) (members : list (string * value)) : option value :=
  match members with
  | [] => None
  | (k, v) :: rest =>
      match lookupMember key rest with
      | Some later => Some later
      | None => if String.eqb k key then Some v else None
      end
  end.

(** [v[key]] for a parsed value [v] that is an object. *)
Definition getField (key : string) (v : value) : option value :=
  match v with
  | Object members => lookupMember key members
  | _ => None
  end.

Definition isInteger (q : Q) : bool := Qeq_bool q (inject_Z (Qfloor q)).

End Json.

(** ** [services/geminiService.ts] *)

Module GeminiService.
Import Eff.
Local Open Scope eff_scope.
Local Open Scope string_scope.

(** [dataUrl.split(',')[1]]: [undefined] when the URL holds no comma. *)
Definition processBase64Image (dataUrl : string) : option string :=
  Js.splitComma dataUrl !! 1%nat.

Inductive SchemaType : Type :=
| TypeObject
| TypeArray
| TypeString
| TypeInteger.

Inductive Schema : Type :=
| mkSchema (type : SchemaType) (description : option string)
    (properties : list (string * Schema)) (required : list string)
    (items : option Schema).

Definition plain (type : SchemaType) : Schema := mkSchema type None [] [] None.

Definition described (type : SchemaType) (description : string) : Schema :=
  mkSchema type (Some description) [] [] None.

Definition HANDOUT_SCHEMA : Schema :=
  mkSchema TypeObject None
    [ ("title", described TypeString
         "A catchy, instructional title for the handout based on the video content.");
      ("summary", described TypeString
         "A brief 2-3 sentence overview of what is being demonstrated.");
      ("steps", mkSchema TypeArray None [] []
         (Some (mkSchema TypeObject None
            [ ("stepNumber", plain TypeInteger);
              ("title", described TypeString "Action-oriented title for this step.");
              ("description", described TypeString
                 "Detailed instruction explaining the visual.");
              ("tips", described TypeString
                 "Optional helpful tip or warning relevant to this step.") ]
            ["stepNumber"; "title"; "description"]
            None))) ]
    ["title"; "summary"; "steps"]
    None.

Definition SELECTION_SCHEMA : Schema :=
  mkSchema TypeObject None
    [ ("selectedIndices", mkSchema TypeArray
         (Some "Indices of the selected frames (0-based) that best represent the key steps.")
         [] [] (Some (plain TypeInteger))) ]
    ["selectedIndices"]
    None.

Inductive Part : Type :=
| InlineData (mimeType : string) (data : option string)
| Text (text : string).

Record Request : Type := mkRequest {
  model : string;
  parts : list Part;
  responseMimeType : string;
  responseSchema : Schema;
  systemInstruction : option string;
}.

(** How [ai.models.generateContent] settles: it rejects, or it resolves with
    a response whose [text] may be [undefined]. *)
Inductive ApiOutcome : Type :=
| ApiThrows (message : string)
| ApiResponds (text : option string).

(** The remote model and its client library. *)
Record Env : Type := mkEnv {
  clientError : option string;          (* what [new GoogleGenAI] throws, if it does *)
  generateContent : Request -> ApiOutcome;
}.

(** Arrays of frames are objects on a heap: two references to one array see
    each other's updates. *)
Definition loc : Type := nat.

Record State : Type := mkState {
  heap : gmap nat (list CapturedFrame.t);
  requests : list Request;              (* requests sent, oldest first *)
  console : list (string * string);     (* console.error(label, error) *)
}.

Definition setHeap (h : gmap nat (list CapturedFrame.t)) : M State unit :=
  modify (fun s => mkState h (requests s) (console s)).

Definition recordRequest (r : Request) : M State unit :=
  modify (fun s => mkState (heap s) (requests s ++ [r]) (console s)).

Definition consoleError (label message : string) : M State unit :=
  modify (fun s => mkState (heap s) (requests s) (console s ++ [(label, message)])).

(** Reading the elements of the array behind a reference. *)
Definition readArray (a : loc) : M State (list CapturedFrame.t) :=
  h <- gets heap ;;
  match h !! a with
  | Some elements => ret elements
  | None => throw "frames is not iterable"
  end.

(** [[...a]]: a new array with the elements of [a]. *)
Definition spread (a : loc) : M State loc :=
  elements <- readArray a ;;
  h <- gets heap ;;
  let fresh_loc := fresh (dom h) in
  setHeap (<[fresh_loc := elements]> h) ;;
  ret fresh_loc.

(** [a.sort(compare)]: sorts the array [a] in place and returns [a]. *)
Definition sortInPlace (compare : CapturedFrame.t -> CapturedFrame.t -> Q) (a : loc)
  : M State loc :=
  elements <- readArray a ;;
  h <- gets heap ;;
  setHeap (<[a := Js.sort compare elements]> h) ;;
  ret a.

(** [(a, b) => a.timestamp - b.timestamp]. *)
Definition byTimestamp (a b : CapturedFrame.t) : Q :=
  (CapturedFrame.timestamp a - CapturedFrame.timestamp b)%Q.

Definition imagePart (frame : CapturedFrame.t) : Part :=
  InlineData "image/jpeg" (processBase64Image (CapturedFrame.dataUrl frame)).

Definition handoutPrompt (count : nat) : string :=
  "You are an expert technical writer creating an instructional handout. " ++ Js.nl ++
  "      I have provided " ++ Js.showNat count ++
  " screenshots from a video tutorial in chronological order." ++ Js.nl ++
  "      " ++ Js.nl ++
  "      Your task:" ++ Js.nl ++
  "      1. Analyze the sequence of images to understand the task being performed." ++ Js.nl ++
  "      2. Generate a structured guide." ++ Js.nl ++
  "      3. For each image, create a corresponding 'Step'." ++ Js.nl ++
  "      4. Ensure the steps match the order of the images provided (Image 1 is Step 1, etc.)."
  ++ Js.nl ++
  "      5. The description should be clear, concise, and helpful for a learner." ++ Js.nl ++
  "      " ++ Js.nl ++
  "      Return the result as JSON matching the schema provided.".

Definition selectionPrompt (count : nat) : string :=
  "I have extracted " ++ Js.showNat count ++ " frames from a video tutorial. " ++ Js.nl ++
  "      Identify the best subset of frames (between 4 and 8 frames) that visually explain the key distinct steps of the process."
  ++ Js.nl ++
  "      Prefer clear images with distinct actions." ++ Js.nl ++
  "      Return the indices of the selected frames (0-based) in the order they appear.".

Definition noResponseMessage : string := "No response from Gemini".

(** The message of the [SyntaxError] of [JSON.parse]; engines word it differently. *)
Definition syntaxErrorMessage : string := "SyntaxError: the response is not valid JSON".

(** The argument of [ai.models.generateContent] in [generateHandoutContent]. *)
Definition handoutRequest (sortedFrames : list CapturedFrame.t) : Request :=
  {| model := "gemini-2.5-flash";
     parts := (map imagePart sortedFrames
               ++ [Text (handoutPrompt (length sortedFrames))])%list;
     responseMimeType := "application/json";
     responseSchema := HANDOUT_SCHEMA;
     systemInstruction := Some "You are a helpful education assistant specializing in creating clear, step-by-step guides from visual inputs." |}.

(** The argument of [ai.models.generateContent] in [filterBestFrames]. *)
Definition selectionRequest (frames : list CapturedFrame.t) : Request :=
  {| model := "gemini-2.5-flash";
     parts := (map imagePart frames ++ [Text (selectionPrompt (length frames))])%list;
     responseMimeType := "application/json";
     responseSchema := SELECTION_SCHEMA;
     systemInstruction := None |}.

Section WithEnv.
Variable env : Env.

(** [new GoogleGenAI({ apiKey })]. *)
Definition newClient : M State unit :=
  match clientError env with
  | Some message => throw message
  | None => ret tt
  end.

(** [await ai.models.generateContent(request)], giving [response.text]. *)
Definition awaitGenerateContent (request : Request) : M State (option string) :=
  recordRequest request ;;
  match generateContent env request with
  | ApiThrows message => throw message
  | ApiResponds text => ret text
  end.

(** [if (!text) throw ...; JSON.parse(text)]. *)
Definition parseResponse (text : option string) : M State Json.value :=
  match text with
  | None | Some EmptyString => throw noResponseMessage
  | Some text =>
      match Json.parse text with
      | Some v => ret v
      | None => throw syntaxErrorMessage
      end
  end.

(** [generateHandoutContent(frames)]; the value returned is the parsed
    payload, which the source casts to [HandoutData] without looking at it. *)
Definition generateHandoutContent (frames : loc) : M State Json.value :=
  tryCatch
    (newClient ;;
     copy <- spread frames ;;
     sortedFrames <- sortInPlace byTimestamp copy ;;
     sorted <- readArray sortedFrames ;;
     text <- awaitGenerateContent (handoutRequest sorted) ;;
     parseResponse text)
    (fun message =>
       consoleError "Error generating handout:" message ;;
       throw message).

(** [filterBestFrames(frames)]; the value returned is [result.selectedIndices],
    [undefined] when the parsed payload has no such member. *)
Definition filterBestFrames (frames : loc) : M State (option Json.value) :=
  tryCatch
    (newClient ;;
     elements <- readArray frames ;;
     text <- awaitGenerateContent (selectionRequest elements) ;;
     result <- parseResponse text ;;
     match result with
     | Json.Null => throw "Cannot read properties of null (reading 'selectedIndices')"
     | _ => ret (Json.getField "selectedIndices" result)
     end)
    (fun message =>
       consoleError "Error filtering frames:" message ;;
       throw message).

End WithEnv.

(** What [HANDOUT_SCHEMA] asks of a payload: every required member is
    present, and every member the schema describes has the described type.
    The source never evaluates this; it is what "matching the schema" means. *)
Fixpoint conforms (schema : Schema) (v : Json.value) {struct schema} : bool :=
  match schema with
  | mkSchema type _ properties required items =>
      match type, v with
      | TypeString, Json.Str _ => true
      | TypeInteger, Json.Number q => Json.isInteger q
      | TypeArray, Json.Array elements =>
          match items with
          | Some item => forallb (conforms item) elements
          | None => true
          end
      | TypeObject, Json.Object members =>
          forallb (fun key => bool_decide (is_Some (Json.lookupMember key members))) required
          && forallb (fun property =>
                        match Json.lookupMember (fst property) members with
                        | Some member => conforms (snd property) member
                        | None => true
                        end) properties
      | _, _ => false
      end
  end.

End GeminiService.

(** ** [components/FrameCapturer.tsx] *)

Module FrameCapturer.
Import Eff.
Local Open Scope eff_scope.
Local Open Scope string_scope.

(** [video.duration]: [NaN] until the metadata is loaded, [Infinity] for a
    stream, a number of seconds otherwise. *)
Inductive Duration : Type :=
| DurationNaN
| DurationInfinity
| DurationSeconds (d : Q).

(** What the canvas does in one call of [createFrameFromVideo], once the
    canvas exists:
    [getContext('2d')] returns [null]; or the frame is drawn and exported, and
    [Math.random] supplies the characters of the id; or [drawImage] or
    [toDataURL] throws an error [e], of which [e.message] is kept. *)
Inductive DrawOutcome : Type :=
| NoContext
| Exported (dataUrl randomId : string)
| ExportThrows (message : string).

(** How the promise of [filterBestFrames] settles. *)
Inductive RankingOutcome : Type :=
| Selected (selectedIndices : list Z)
| RankingThrows (message : string).

(** The browser, the user and the remote model. *)
Record Env : Type := mkEnv {
  videoMounted : bool;                  (* videoRef.current is not null *)
  canvasMounted : bool;                 (* canvasRef.current is not null *)
  readyState : Z;                       (* video.readyState *)
  duration : Duration;                  (* video.duration *)
  confirmAnswer : bool;                 (* the answer to window.confirm *)
  draw : nat -> DrawOutcome;            (* the canvas, in the n-th capture *)
  filterBestFrames : list CapturedFrame.t -> RankingOutcome;
}.

Inductive ConsoleEntry : Type :=
| ConsoleLog (line : string)
| ConsoleError (label message : string).

(** The component's React state, the video element, and the record of what
    the component did to the outside world (oldest entry first). *)
Record State : Type := mkState {
  frames : list CapturedFrame.t;
  isPlaying : bool;
  isAnalyzing : bool;
  statusMessage : string;
  debugLogs : list string;
  currentTime : Q;                      (* video.currentTime *)
  paused : bool;                        (* video.paused *)
  captures : nat;                       (* calls of createFrameFromVideo so far *)
  console : list ConsoleEntry;
  alerts : list string;
  seeks : list Q;                       (* values assigned to video.currentTime *)
  rankingCalls : list (list CapturedFrame.t);
}.

Definition initialState : State :=
  {| frames := []; isPlaying := false; isAnalyzing := false; statusMessage := "";
     debugLogs := []; currentTime := 0%Q; paused := true; captures := 0%nat;
     console := []; alerts := []; seeks := []; rankingCalls := [] |}.

Definition setFrames (v : list CapturedFrame.t) : M State unit :=
  modify (fun s => mkState v (isPlaying s) (isAnalyzing s) (statusMessage s) (debugLogs s)
    (currentTime s) (paused s) (captures s) (console s) (alerts s) (seeks s) (rankingCalls s)).

Definition updateFrames (f : list CapturedFrame.t -> list CapturedFrame.t) : M State unit :=
  modify (fun s => mkState (f (frames s)) (isPlaying s) (isAnalyzing s) (statusMessage s)
    (debugLogs s) (currentTime s) (paused s) (captures s) (console s) (alerts s) (seeks s)
    (rankingCalls s)).

Definition setIsPlaying (v : bool) : M State unit :=
  modify (fun s => mkState (frames s) v (isAnalyzing s) (statusMessage s) (debugLogs s)
    (currentTime s) (paused s) (captures s) (console s) (alerts s) (seeks s) (rankingCalls s)).

Definition setIsAnalyzing (v : bool) : M State unit :=
  modify (fun s => mkState (frames s) (isPlaying s) v (statusMessage s) (debugLogs s)
    (currentTime s) (paused s) (captures s) (console s) (alerts s) (seeks s) (rankingCalls s)).

Definition setStatusMessage (v : string) : M State unit :=
  modify (fun s => mkState (frames s) (isPlaying s) (isAnalyzing s) v (debugLogs s)
    (currentTime s) (paused s) (captures s) (console s) (alerts s) (seeks s) (rankingCalls s)).

Definition updateDebugLogs (f : list string -> list string) : M State unit :=
  modify (fun s => mkState (frames s) (isPlaying s) (isAnalyzing s) (statusMessage s)
    (f (debugLogs s)) (currentTime s) (paused s) (captures s) (console s) (alerts s) (seeks s)
    (rankingCalls s)).

(** [video.currentTime = t]: the video is taken to be positioned at [t] when
    the wait for [seeked] and the paint delay are over. *)
Definition seek (t : Q) : M State unit :=
  modify (fun s => mkState (frames s) (isPlaying s) (isAnalyzing s) (statusMessage s)
    (debugLogs s) t (paused s) (captures s) (console s) (alerts s) (seeks s ++ [t])
    (rankingCalls s)).

(** [video.pause()]. *)
Definition pause : M State unit :=
  modify (fun s => mkState (frames s) (isPlaying s) (isAnalyzing s) (statusMessage s)
    (debugLogs s) (currentTime s) true (captures s) (console s) (alerts s) (seeks s)
    (rankingCalls s)).

Definition countCapture : M State unit :=
  modify (fun s => mkState (frames s) (isPlaying s) (isAnalyzing s) (statusMessage s)
    (debugLogs s) (currentTime s) (paused s) (S (captures s)) (console s) (alerts s) (seeks s)
    (rankingCalls s)).

Definition writeConsole (e : ConsoleEntry) : M State unit :=
  modify (fun s => mkState (frames s) (isPlaying s) (isAnalyzing s) (statusMessage s)
    (debugLogs s) (currentTime s) (paused s) (captures s) (console s ++ [e]) (alerts s) (seeks s)
    (rankingCalls s)).

Definition alert (message : string) : M State unit :=
  modify (fun s => mkState (frames s) (isPlaying s) (isAnalyzing s) (statusMessage s)
    (debugLogs s) (currentTime s) (paused s) (captures s) (console s) (alerts s ++ [message])
    (seeks s) (rankingCalls s)).

Definition recordRankingCall (candidates : list CapturedFrame.t) : M State unit :=
  modify (fun s => mkState (frames s) (isPlaying s) (isAnalyzing s) (statusMessage s)
    (debugLogs s) (currentTime s) (paused s) (captures s) (console s) (alerts s) (seeks s)
    (rankingCalls s ++ [candidates])).

(** [addLog]: a console line, and the last four messages kept on screen. *)
Definition addLog (msg : string) : M State unit :=
  writeConsole (ConsoleLog ("[AutoSelect] " ++ msg)) ;;
  updateDebugLogs (fun prev => Js.sliceLast3 prev ++ [msg])%list.

(** The [formatTime] of [createFrameFromVideo]. *)
Definition formatTime (seconds : Q) : string :=
  let m := Js.floor (seconds / 60) in
  let s := Js.floor (Js.rem seconds 60) in
  Js.showZ m ++ ":" ++ Js.padStart2 (Js.showZ s).

Definition captureErrorPrefix : string := "Canvas export failed (Security/CORS): ".

Definition noFramesMessage : string := "No valid frames could be captured.".

Section WithEnv.
Variable env : Env.

(** [createFrameFromVideo]: [null] without a canvas or a 2d context, a frame
    stamped with the video's current time, or the export error rethrown. *)
Definition createFrameFromVideo : M State (option CapturedFrame.t) :=
  n <- gets captures ;;
  countCapture ;;
  if canvasMounted env then
    match draw env n with
    | NoContext => ret None
    | Exported dataUrl randomId =>
        timestamp <- gets currentTime ;;
        ret (Some {| CapturedFrame.id := randomId;
                     CapturedFrame.dataUrl := dataUrl;
                     CapturedFrame.timestamp := timestamp;
                     CapturedFrame.originalTimeFormatted := formatTime timestamp |})
    | ExportThrows message =>
        writeConsole (ConsoleError "Frame creation error:" message) ;;
        throw (captureErrorPrefix ++ message)
    end
  else ret None.

(** [captureFrame]: the manual capture button. *)
Definition captureFrame : M State unit :=
  if videoMounted env then
    tryCatch
      (frame <- createFrameFromVideo ;;
       match frame with
       | Some f => updateFrames (fun prev => prev ++ [f])%list
       | None => ret tt
       end)
      (fun message => alert ("Could not capture frame. " ++ message))
  else ret tt.

(** [removeFrame]. *)
Definition removeFrame (id : string) : M State unit :=
  updateFrames (filter (fun f => CapturedFrame.id f <> id)).

(** The number of timestamps of a scan. *)
Definition steps : nat := 12.

Definition interval (duration : Q) : Q := (duration / inject_Z (Z.of_nat (steps + 1)))%Q.

(** The timestamp of iteration [i] of the scan loop. *)
Definition timestampAt (duration : Q) (i : nat) : Q :=
  (interval duration * inject_Z (Z.of_nat i))%Q.

(** The body of [for (let i = 1; i <= steps; i++)], over the values of [i]
    still to come; [candidates] is the array filled by [push]. *)
Fixpoint scanLoop (duration : Q) (remaining : list nat) (candidates : list CapturedFrame.t)
  : M State (list CapturedFrame.t) :=
  match remaining with
  | [] => ret candidates
  | i :: rest =>
      setStatusMessage ("Scanning video... Frame " ++ Js.showNat i ++ " of "
                        ++ Js.showNat steps) ;;
      let timestamp := timestampAt duration i in
      seek timestamp ;;
      frame <- createFrameFromVideo ;;
      match frame with
      | Some f => scanLoop duration rest (candidates ++ [f])%list
      | None =>
          addLog ("Skipped frame at " ++ Js.toFixed1 timestamp ++ "s") ;;
          scanLoop duration rest candidates
      end
  end.

(** [selectedIndices.map(idx => candidates[idx]).filter(f => f !== undefined)]. *)
Definition finalFrames (candidates : list CapturedFrame.t) (selectedIndices : list Z)
  : list CapturedFrame.t :=
  Js.filterDefined (map (fun idx => Js.index candidates idx) selectedIndices).

(** [await filterBestFrames(candidates)]. *)
Definition awaitFilterBestFrames (candidates : list CapturedFrame.t) : M State (list Z) :=
  recordRankingCall candidates ;;
  match filterBestFrames env candidates with
  | Selected selectedIndices => ret selectedIndices
  | RankingThrows message => throw message
  end.

(** The block [// 4. Send to AI] of the deferred task. *)
Definition sendToAI (candidates : list CapturedFrame.t) : M State unit :=
  if (0 <? length candidates)%nat then
    setStatusMessage "AI is analyzing frames..." ;;
    addLog ("Analyzing " ++ Js.showNat (length candidates) ++ " frames...") ;;
    selectedIndices <- awaitFilterBestFrames candidates ;;
    addLog ("Selected " ++ Js.showNat (length selectedIndices) ++ " frames.") ;;
    setFrames (finalFrames candidates selectedIndices)
  else throw noFramesMessage.

(** The [try] block of the deferred task of [handleAutoCapture]: the scan
    over [i = 1 .. steps], then the selection. *)
Definition autoCaptureBody (duration : Q) : M State unit :=
  addLog ("Duration: " ++ Js.toFixed1 duration ++ "s") ;;
  pause ;;
  setIsPlaying false ;;
  candidates <- scanLoop duration (seq 1 steps) [] ;;
  sendToAI candidates.

(** The deferred task: the [try] block with its [catch] and [finally]. *)
Definition autoCaptureTask (duration : Q) : M State unit :=
  tryFinally
    (tryCatch (autoCaptureBody duration)
       (fun message =>
          writeConsole (ConsoleError "Auto-capture error:" message) ;;
          addLog ("ERROR: " ++ message) ;;
          alert ("Auto-select failed." ++ Js.nl ++ Js.nl ++ "Reason: " ++ message
                 ++ Js.nl ++ Js.nl ++ "Please try manually capturing frames.")))
    (setIsAnalyzing false ;; setStatusMessage "").

(** [handleAutoCapture]: the guards, the confirmation, the reset of the
    component's state, then the deferred task. *)
Definition handleAutoCapture : M State unit :=
  if negb (videoMounted env) || negb (canvasMounted env) then
    alert "System Error: Video player or canvas not found."
  else if (readyState env <? 2)%Z then
    alert "Video is not ready. Please play the video for one second and try again."
  else
    match duration env with
    | DurationNaN | DurationInfinity =>
        alert "Cannot determine video duration. Please play the video briefly to load metadata."
    | DurationSeconds d =>
        if negb (confirmAnswer env) then ret tt
        else
          setFrames [] ;;
          setIsAnalyzing true ;;
          updateDebugLogs (fun _ => []) ;;
          setStatusMessage "Initializing auto-select..." ;;
          addLog "Process started..." ;;
          autoCaptureTask d
    end.

End WithEnv.

End FrameCapturer.

(** ** [components/HandoutDisplay.tsx] *)

Module HandoutDisplay.
Import Eff.
Local Open Scope eff_scope.
Local Open Scope string_scope.

(** [{ ...step, image }]. *)
Record StepWithImage : Type := mkStepWithImage {
  step : HandoutStep.t;
  image : option CapturedFrame.t;       (* null when there is no frame *)
}.

(** [data.steps.map((step, index) => ...)]; the frames are sorted again, on a
    copy, for every step. *)
Definition stepsWithImages (data : HandoutData.t) (frames : list CapturedFrame.t)
  : list StepWithImage :=
  imap (fun index step =>
          let sortedFrames := Js.sort GeminiService.byTimestamp frames in
          {| step := step; image := sortedFrames !! index |})
       (HandoutData.steps data).

(** What is put on the page for one step. *)
Record Img : Type := mkImg {
  src : string;
  alt : string;
}.

Record StepView : Type := mkStepView {
  badge : string;                       (* {step.stepNumber} *)
  heading : string;                     (* {step.title} *)
  img : option Img;
  body : string;                        (* {step.description} *)
  tip : option string;
}.

Record View : Type := mkView {
  pageTitle : string;
  pageSummary : string;
  stepViews : list StepView;
}.

(** [image.dataUrl]: reading a property of [null] throws a [TypeError]. *)
Definition readDataUrl (image : option CapturedFrame.t) : M unit string :=
  match image with
  | Some frame => ret (CapturedFrame.dataUrl frame)
  | None => throw "Cannot read properties of null (reading 'dataUrl')"
  end.

(** [{step.image && (<img src={step.image.dataUrl} alt={`Step ${...}`} />)}]. *)
Definition renderImage (s : StepWithImage) : M unit (option Img) :=
  match image s with
  | Some _ =>
      url <- readDataUrl (image s) ;;
      ret (Some {| src := url;
                   alt := "Step " ++ Js.showZ (HandoutStep.stepNumber (step s)) |})
  | None => ret None
  end.

(** [{step.tips && (...)}]: an absent or empty tip shows nothing. *)
Definition renderTip (s : StepWithImage) : option string :=
  match HandoutStep.tips (step s) with
  | Some EmptyString => None
  | Some text => Some text
  | None => None
  end.

Definition renderStep (s : StepWithImage) : M unit StepView :=
  picture <- renderImage s ;;
  ret {| badge := Js.showZ (HandoutStep.stepNumber (step s));
         heading := HandoutStep.title (step s);
         img := picture;
         body := HandoutStep.description (step s);
         tip := renderTip s |}.

Fixpoint renderSteps (l : list StepWithImage) : M unit (list StepView) :=
  match l with
  | [] => ret []
  | s :: rest =>
      v <- renderStep s ;;
      vs <- renderSteps rest ;;
      ret (v :: vs)
  end.

(** The component, as a function of its props. *)
Definition HandoutDisplay (data : HandoutData.t) (frames : list CapturedFrame.t)
  : M unit View :=
  views <- renderSteps (stepsWithImages data frames) ;;
  ret {| pageTitle := HandoutData.title data;
         pageSummary := HandoutData.summary data;
         stepViews := views |}.

End HandoutDisplay.

(** ** [components/VideoUploader.tsx] *)

Module VideoUploader.

(** A [File] of the browser, of which the model keeps the name. *)
Definition File : Type := string.

(** [handleFileChange]: [files] is [e.target.files], [null] or a list of
    files.  The result is the argument of the call of [onVideoSelected], if
    the call is made. *)
Definition handleFileChange (files : option (list File)) : option File :=
  match files with
  | Some (first :: _) => Some first
  | Some [] => None
  | None => None
  end.

End VideoUploader.

(** ** The play control of [components/FrameCapturer.tsx] *)

Module PlayControl.
Import Eff FrameCapturer.
Local Open Scope eff_scope.

(** [video.play()], taken to succeed: the video is no longer paused. *)
Definition play : M State unit :=
  modify (fun s => mkState (frames s) (isPlaying s) (isAnalyzing s) (statusMessage s)
    (debugLogs s) (currentTime s) false (captures s) (console s) (alerts s) (seeks s)
    (rankingCalls s)).

(** [togglePlay]. *)
Definition togglePlay (env : Env) : M State unit :=
  if videoMounted env then
    playing <- gets isPlaying ;;
    (if playing then pause else play) ;;
    setIsPlaying (negb playing)
  else ret tt.

End PlayControl.

(** ** [App.tsx] and the [AppState] of [types.ts] *)

Module AppState.
Inductive t : Type :=
| UPLOAD
| CAPTURE
| GENERATING
| PREVIEW
| ERROR.
End AppState.

Module App.
Import Eff.
Local Open Scope eff_scope.
Local Open Scope string_scope.

(** The state of the component, and with it the heap the arrays of frames
    live on, the requests sent to the remote model and the console.  [frames]
    holds a reference: the array the capturer handed over is the array the
    display is given. *)
Record State : Type := mkState {
  appState : AppState.t;
  videoFile : option VideoUploader.File;
  frames : GeminiService.loc;
  handoutData : option Json.value;
  error : option string;
  service : GeminiService.State;
  errorsLogged : list string;           (* console.error(err) *)
}.

(** The state at mount: [frames] is a new, empty array. *)
Definition initialState : State :=
  {| appState := AppState.UPLOAD; videoFile := None; frames := 0%nat;
     handoutData := None; error := None;
     service := GeminiService.mkState {[ 0%nat := [] ]} [] [];
     errorsLogged := [] |}.

Definition setAppState (v : AppState.t) : M State unit :=
  modify (fun s => mkState v (videoFile s) (frames s) (handoutData s) (error s)
                     (service s) (errorsLogged s)).

Definition setVideoFile (v : option VideoUploader.File) : M State unit :=
  modify (fun s => mkState (appState s) v (frames s) (handoutData s) (error s)
                     (service s) (errorsLogged s)).

Definition setFrames (v : GeminiService.loc) : M State unit :=
  modify (fun s => mkState (appState s) (videoFile s) v (handoutData s) (error s)
                     (service s) (errorsLogged s)).

Definition setHandoutData (v : option Json.value) : M State unit :=
  modify (fun s => mkState (appState s) (videoFile s) (frames s) v (error s)
                     (service s) (errorsLogged s)).

Definition setError (v : option string) : M State unit :=
  modify (fun s => mkState (appState s) (videoFile s) (frames s) (handoutData s) v
                     (service s) (errorsLogged s)).

Definition setService (v : GeminiService.State) : M State unit :=
  modify (fun s => mkState (appState s) (videoFile s) (frames s) (handoutData s) (error s)
                     v (errorsLogged s)).

Definition logError (message : string) : M State unit :=
  modify (fun s => mkState (appState s) (videoFile s) (frames s) (handoutData s) (error s)
                     (service s) (errorsLogged s ++ [message])).

(** A computation of the service, run on the service part of the state. *)
Definition inService {A : Type} (m : M GeminiService.State A) : M State A :=
  fun s =>
    match m (service s) with
    | (r, service') =>
        (r, mkState (appState s) (videoFile s) (frames s) (handoutData s) (error s)
              service' (errorsLogged s))
    end.

(** An array literal: a new array on the heap. *)
Definition newArray (elements : list CapturedFrame.t) : M State GeminiService.loc :=
  inService
    (h <- gets GeminiService.heap ;;
     let a := fresh (dom h) in
     GeminiService.setHeap (<[a := elements]> h) ;;
     ret a).

Definition generationFailedMessage : string :=
  "We encountered an issue while generating your handout. This might be due to network connectivity or high traffic.".

Definition defaultErrorMessage : string :=
  "Something went wrong while communicating with Gemini.".

Section WithEnv.
Variable env : GeminiService.Env.

(** [handleVideoSelected]. *)
Definition handleVideoSelected (file : VideoUploader.File) : M State unit :=
  setVideoFile (Some file) ;;
  setAppState AppState.CAPTURE.

(** [handleGenerate]. *)
Definition handleGenerate (capturedFrames : GeminiService.loc) : M State unit :=
  setFrames capturedFrames ;;
  setAppState AppState.GENERATING ;;
  setError None ;;
  tryCatch
    (data <- inService (GeminiService.generateHandoutContent env capturedFrames) ;;
     setHandoutData (Some data) ;;
     setAppState AppState.PREVIEW)
    (fun message =>
       logError message ;;
       setError (Some generationFailedMessage) ;;
       setAppState AppState.ERROR).

(** [handleReset]. *)
Definition handleReset : M State unit :=
  setAppState AppState.UPLOAD ;;
  setVideoFile None ;;
  empty <- newArray [] ;;
  setFrames empty ;;
  setHandoutData None ;;
  setError None.

(** What the user can do on the screen that is shown. *)
Inductive Event : Type :=
| FileChange (files : option (list VideoUploader.File))   (* the uploader's input *)
| Generate (capturerFrames : list CapturedFrame.t)        (* the capturer's onGenerate *)
| Back                                                    (* the capturer's onBack *)
| BackToEditor                                            (* the error screen *)
| TryAgain                                                (* the error screen *)
| Reset.                                                  (* the display's onReset *)

(** The handler an event runs.  The capturer's frame list is an array of its
    own: it is put on the heap when it is handed over. *)
Definition handle (e : Event) : M State unit :=
  match e with
  | FileChange files =>
      match VideoUploader.handleFileChange files with
      | Some file => handleVideoSelected file
      | None => ret tt
      end
  | Generate capturerFrames =>
      a <- newArray capturerFrames ;;
      handleGenerate a
  | Back => setAppState AppState.UPLOAD
  | BackToEditor => setAppState AppState.CAPTURE
  | TryAgain =>
      a <- gets frames ;;
      handleGenerate a
  | Reset => handleReset
  end.

End WithEnv.

(** The elements of the JSX of [App], one for each condition that holds. *)
Inductive Element : Type :=
| Uploader
| Capturer (videoFile : VideoUploader.File)
| Spinner
| ErrorCard (message : string)
| Display (data : Json.value) (frames : GeminiService.loc).

Definition isState (a b : AppState.t) : bool :=
  match a, b with
  | AppState.UPLOAD, AppState.UPLOAD
  | AppState.CAPTURE, AppState.CAPTURE
  | AppState.GENERATING, AppState.GENERATING
  | AppState.PREVIEW, AppState.PREVIEW
  | AppState.ERROR, AppState.ERROR => true
  | _, _ => false
  end.

Definition render (s : State) : list Element :=
  ((if isState (appState s) AppState.UPLOAD then [Uploader] else [])
   ++ (if isState (appState s) AppState.CAPTURE then
         match videoFile s with
         | Some file => [Capturer file]
         | None => []
         end
       else [])
   ++ (if isState (appState s) AppState.GENERATING then [Spinner] else [])
   ++ (if isState (appState s) AppState.ERROR then
         [ErrorCard (match error s with
                     | Some EmptyString | None => defaultErrorMessage
                     | Some message => message
                     end)]
       else [])
   ++ (if isState (appState s) AppState.PREVIEW then
         match handoutData s with
         | Some data => [Display data (frames s)]
         | None => []
         end
       else []))%list.

(** The events the rendered elements offer.  The capturer's Generate button
    is disabled while its frame list is empty. *)
Definition offers (element : Element) (e : Event) : bool :=
  match element, e with
  | Uploader, FileChange _ => true
  | Capturer _, Generate capturerFrames => negb (Nat.eqb (length capturerFrames) 0)
  | Capturer _, Back => true
  | ErrorCard _, BackToEditor => true
  | ErrorCard _, TryAgain => true
  | Display _ _, Reset => true
  | _, _ => false
  end.

Definition enabled (s : State) (e : Event) : bool :=
  existsb (fun element => offers element e) (render s).


End App.

(** * Properties *)

(** ** Vocabulary *)

Module Props.
Import FrameCapturer.

(** Order of frames by timestamp. *)
Definition notAfter (a b : CapturedFrame.t) : Prop :=
  (CapturedFrame.timestamp a <= CapturedFrame.timestamp b)%Q.

Definition before (a b : CapturedFrame.t) : Prop :=
  (CapturedFrame.timestamp a < CapturedFrame.timestamp b)%Q.

(** Non-decreasing, and strictly increasing, timestamps. *)
Definition Chronological (l : list CapturedFrame.t) : Prop := StronglySorted notAfter l.

Definition Increasing (l : list CapturedFrame.t) : Prop := StronglySorted before l.

(** [0 <= i < n]. *)
Definition inRange (n : nat) (i : Z) : bool := (0 <=? i) && (i <? Z.of_nat n).

(** The three ways a call of [createFrameFromVideo] ends, read off the
    environment: [n] counts the calls. *)
Definition yieldsNull (env : Env) (n : nat) : bool :=
  if canvasMounted env then
    match draw env n with
    | NoContext => true
    | _ => false
    end
  else true.

Definition captureThrows (env : Env) (n : nat) : bool :=
  if canvasMounted env then
    match draw env n with
    | ExportThrows _ => true
    | _ => false
    end
  else false.

(** The number of calls among [from, from + count) that yield [null]. *)
Fixpoint nullCount (env : Env) (from count : nat) : nat :=
  match count with
  | O => O
  | S count' => ((if yieldsNull env from then 1 else 0) + nullCount env (S from) count')%nat
  end.


Definition allNull (env : Env) (from count : nat) : bool :=
  forallb (fun j => yieldsNull env (from + j)) (seq 0 count).

(** [s1] is reached from [s] by seeking to [ts], writing [lines] on the
    console and calling [createFrameFromVideo] [k] times, the frame list, the
    alerts and the calls of the selector being untouched. *)
Definition scanned (s s1 : State) (ts : list Q) (lines : list ConsoleEntry) (k : nat) : Prop :=
  frames s1 = frames s /\ alerts s1 = alerts s /\ rankingCalls s1 = rankingCalls s
  /\ seeks s1 = seeks s ++ ts /\ console s1 = console s ++ lines
  /\ captures s1 = (captures s + k)%nat.

(** The frame a successful capture builds at time [t]. *)
Definition frameAt (dataUrl randomId : string) (t : Q) : CapturedFrame.t :=
  {| CapturedFrame.id := randomId;
     CapturedFrame.dataUrl := dataUrl;
     CapturedFrame.timestamp := t;
     CapturedFrame.originalTimeFormatted := formatTime t |}.

(** The frames a scan over the loop indices [remaining] collects when its
    first capture is call number [n], and the timestamps it skips. *)
Fixpoint collected (env : Env) (duration : Q) (remaining : list nat) (n : nat)
  : list CapturedFrame.t :=
  match remaining with
  | [] => []
  | i :: rest =>
      if canvasMounted env then
        match draw env n with
        | Exported dataUrl randomId =>
            frameAt dataUrl randomId (timestampAt duration i)
              :: collected env duration rest (S n)
        | _ => collected env duration rest (S n)
        end
      else collected env duration rest (S n)
  end.

Fixpoint skipped (env : Env) (duration : Q) (remaining : list nat) (n : nat) : list Q :=
  match remaining with
  | [] => []
  | i :: rest =>
      if yieldsNull env n then timestampAt duration i :: skipped env duration rest (S n)
      else skipped env duration rest (S n)
  end.

Definition skipLine (t : Q) : ConsoleEntry :=
  ConsoleLog ("[AutoSelect] Skipped frame at " ++ Js.toFixed1 t ++ "s")%string.

(** The alert of the [catch] block of the deferred task. *)
Definition failureAlert (message : string) : string :=
  ("Auto-select failed." ++ Js.nl ++ Js.nl ++ "Reason: " ++ message
   ++ Js.nl ++ Js.nl ++ "Please try manually capturing frames.")%string.

End Props.

(** ** Sample inputs *)

Module Samples.
Import FrameCapturer.
Local Open Scope string_scope.

Definition frame (id : string) (t : Q) : CapturedFrame.t :=
  Props.frameAt ("data:image/jpeg;base64," ++ id) id t.

Definition frameA : CapturedFrame.t := frame "a" 1.
Definition frameB : CapturedFrame.t := frame "b" 2.
Definition frameC : CapturedFrame.t := frame "c" 3.

Definition exported (n : nat) : DrawOutcome :=
  Exported ("data:image/jpeg;base64," ++ Js.showNat n) (Js.showNat n).

(** A video of 26 seconds, ready to play; the user confirms. *)
Definition envWith (draw : nat -> DrawOutcome) (selectedIndices : list Z) : Env :=
  {| videoMounted := true; canvasMounted := true; readyState := 4;
     duration := DurationSeconds 26; confirmAnswer := true;
     draw := draw;
     filterBestFrames := fun _ => Selected selectedIndices |}.

(** Every capture succeeds; the selector answers [2, 7, 15, 1]. *)
Definition envAllExported : Env := envWith exported [2; 7; 15; 1].

(** The third and the sixth capture find no 2d context. *)
Definition envTwoNulls : Env :=
  envWith (fun n => match n with
                    | 2%nat | 5%nat => NoContext
                    | _ => exported n
                    end) [0; 3].


(** No capture finds a 2d context. *)
Definition envAllNull : Env := envWith (fun _ => NoContext) [0].

(** Every capture succeeds; the selector answers [2, 2]. *)
Definition envRepeatedSelection : Env := envWith exported [2; 2].

(** Every capture succeeds; the selector answers [1, 0]. *)
Definition envReversedSelection : Env := envWith exported [1; 0].

(** The video stands at second 1 when the user captures a frame by hand. *)
Definition stateAtOne : State :=
  {| frames := [frameB]; isPlaying := false; isAnalyzing := false; statusMessage := "";
     debugLogs := []; currentTime := 1%Q; paused := true; captures := 0%nat;
     console := []; alerts := []; seeks := []; rankingCalls := [] |}.

(** The video stands at second 3; the list holds frames of seconds 1, 2, 3. *)
Definition stateABC : State :=
  {| frames := [frameA; frameB; frameC]; isPlaying := false; isAnalyzing := false;
     statusMessage := ""; debugLogs := []; currentTime := 3%Q; paused := true;
     captures := 0%nat; console := []; alerts := []; seeks := []; rankingCalls := [] |}.

(** The scan of the 26-second video in an environment: the candidates it
    returns (none if it throws) and the state it ends in. *)
Definition scanOf (env : Env) : list CapturedFrame.t * State :=
  match scanLoop env 26 (seq 1 steps) [] initialState with
  | (Eff.Returned candidates, s) => (candidates, s)
  | (Eff.Thrown _, s) => ([], s)
  end.

(** A heap with one array of frames, out of chronological order, at
    reference 0. *)
Definition heapCBA : gmap nat (list CapturedFrame.t) :=
  {[ 0%nat := [frameC; frameB; frameA] ]}.

Definition serviceState : GeminiService.State :=
  GeminiService.mkState heapCBA [] [].

(** A remote model that answers every request with the same text. *)
Definition answering (text : string) : GeminiService.Env :=
  GeminiService.mkEnv None (fun _ => GeminiService.ApiResponds (Some text)).

(** The payload [{"title":"Only a title"}]. *)
Definition titleOnly : string :=
  "{" ++ Js.dquote ++ "title" ++ Js.dquote ++ ":" ++ Js.dquote ++ "Only a title"
  ++ Js.dquote ++ "}".

(** A document of three steps. *)
Definition step (n : Z) : HandoutStep.t :=
  {| HandoutStep.stepNumber := n; HandoutStep.title := "Step";
     HandoutStep.description := "Do it."; HandoutStep.tips := None |}.

Definition threeSteps : HandoutData.t :=
  {| HandoutData.title := "T"; HandoutData.summary := "S";
     HandoutData.steps := [step 1; step 2; step 3] |}.

End Samples.

(** ** Vocabulary of the display *)

Module DisplayProps.
Import HandoutDisplay.

(** The picture of a step that has a frame. *)
Definition pictureOf (step : HandoutStep.t) (frame : CapturedFrame.t) : Img :=
  {| src := CapturedFrame.dataUrl frame;
     alt := ("Step " ++ Js.showZ (HandoutStep.stepNumber step))%string |}.

(** The view of a step and its image, when nothing throws. *)
Definition viewOf (s : StepWithImage) : StepView :=
  {| badge := Js.showZ (HandoutStep.stepNumber (step s));
     heading := HandoutStep.title (step s);
     img := pictureOf (step s) <$> image s;
     body := HandoutStep.description (step s);
     tip := renderTip s |}.

End DisplayProps.

(** ** Vocabulary and sample inputs of the further properties *)

Module MoreProps.
Local Open Scope string_scope.

(** The string holds no comma. *)
Fixpoint noComma (s : string) : bool :=
  match s with
  | EmptyString => true
  | String c rest => negb (Ascii.eqb c ","%char) && noComma rest
  end.

(** The view of a step shows a picture. *)
Definition hasPicture (v : HandoutDisplay.StepView) : bool :=
  match HandoutDisplay.img v with
  | Some _ => true
  | None => false
  end.

(** A client library that cannot be set up. *)
Definition noClient (message : string) : GeminiService.Env :=
  GeminiService.mkEnv (Some message) (fun _ => GeminiService.ApiResponds None).

(** A remote model that rejects every request. *)
Definition rejecting (message : string) : GeminiService.Env :=
  GeminiService.mkEnv None (fun _ => GeminiService.ApiThrows message).

(** The payload [{"selectedIndices":[0,2]}]. *)
Definition indicesPayload : string :=
  "{" ++ Js.dquote ++ "selectedIndices" ++ Js.dquote ++ ":[0,2]}".


(** A video whose pixels cannot be read back: every export throws. *)
Definition envTainted : FrameCapturer.Env :=
  Samples.envWith (fun _ => FrameCapturer.ExportThrows "The operation is insecure.") [].

(** The video is playing, and the component knows. *)
Definition statePlaying : FrameCapturer.State :=
  FrameCapturer.mkState [] true false "" [] 0%Q false 0%nat [] [] [] [].


End MoreProps.

(** ** Sorting by timestamp *)

Module SortFacts.
Import Props.

Lemma byTimestamp_le (a b : CapturedFrame.t) :
  Qle_bool (GeminiService.byTimestamp a b) 0 = true <-> notAfter a b.
Proof.
  unfold GeminiService.byTimestamp, notAfter. rewrite Qle_bool_iff. split; intros H; lra.
Qed.

Lemma byTimestamp_gt (a b : CapturedFrame.t) :
  Qle_bool (GeminiService.byTimestamp a b) 0 = false -> before b a.
Proof.
  intros H. unfold before.
  destruct (Qlt_le_dec (CapturedFrame.timestamp b) (CapturedFrame.timestamp a)) as [Hlt|Hle];
    [exact Hlt|].
  apply byTimestamp_le in Hle. congruence.
Qed.

#[local] Instance notAfter_trans : Transitive notAfter.
Proof. intros a b c; unfold notAfter; intros; lra. Qed.

#[local] Instance before_trans : Transitive before.
Proof. intros a b c; unfold before; intros; lra. Qed.

Lemma before_notAfter (a b : CapturedFrame.t) : before a b -> notAfter a b.
Proof. unfold before, notAfter; intros; lra. Qed.

Lemma Increasing_Chronological (l : list CapturedFrame.t) : Increasing l -> Chronological l.
Proof.
  unfold Increasing, Chronological. induction 1 as [|x l Hl IH Hx]; constructor; auto.
  eapply Forall_impl; [exact Hx|]. intros y. apply before_notAfter.
Qed.

Lemma insertSorted_perm {A : Type} (compare : A -> A -> Q) (x : A) (l : list A) :
  Permutation (Js.insertSorted compare x l) (x :: l).
Proof.
  induction l as [|y l IH]; simpl; [reflexivity|].
  destruct (Qle_bool (compare x y) 0); [reflexivity|].
  rewrite IH. apply perm_swap.
Qed.

Lemma sort_perm {A : Type} (compare : A -> A -> Q) (l : list A) :
  Permutation (Js.sort compare l) l.
Proof.
  induction l as [|x l IH]; simpl; [reflexivity|].
  unfold Js.sort in *. simpl. rewrite insertSorted_perm. by rewrite IH.
Qed.

Lemma sort_length {A : Type} (compare : A -> A -> Q) (l : list A) :
  length (Js.sort compare l) = length l.
Proof. apply Permutation_length, sort_perm. Qed.

Lemma insertSorted_sorted (x : CapturedFrame.t) (l : list CapturedFrame.t) :
  Sorted notAfter l -> Sorted notAfter (Js.insertSorted GeminiService.byTimestamp x l).
Proof.
  induction 1 as [|y l Hl IH Hy]; simpl; [repeat constructor|].
  destruct (Qle_bool (GeminiService.byTimestamp x y) 0) eqn:Hc.
  - apply byTimestamp_le in Hc. repeat constructor; assumption.
  - apply byTimestamp_gt, before_notAfter in Hc.
    constructor; [exact IH|].
    destruct Hy as [|z l Hyz]; simpl.
    + constructor; exact Hc.
    + destruct (Qle_bool (GeminiService.byTimestamp x z) 0); constructor; assumption.
Qed.

(** The sorted copy is in non-decreasing timestamp order. *)
Lemma sort_chronological (l : list CapturedFrame.t) :
  Chronological (Js.sort GeminiService.byTimestamp l).
Proof.
  apply Sorted_StronglySorted; [apply _|].
  induction l as [|x l IH]; [constructor|].
  apply insertSorted_sorted, IH.
Qed.



End SortFacts.

(** ** Adopting the selection result *)

Module SelectionFacts.
Import FrameCapturer Props.

Lemma finalFrames_cons (candidates : list CapturedFrame.t) (idx : Z) (rest : list Z) :
  finalFrames candidates (idx :: rest)
  = match Js.index candidates idx with
    | Some f => f :: finalFrames candidates rest
    | None => finalFrames candidates rest
    end.
Proof. unfold finalFrames. simpl. destruct (Js.index candidates idx); reflexivity. Qed.

Lemma index_in_range {A : Type} (a : list A) (i : Z) :
  inRange (length a) i = true ->
  exists x, Js.index a i = Some x /\ a !! Z.to_nat i = Some x.
Proof.
  unfold inRange, Js.index. intros H. apply andb_true_iff in H as [H0 Hn].
  rewrite H0. apply Z.ltb_lt in Hn. apply Z.leb_le in H0.
  destruct (lookup_lt_is_Some_2 a (Z.to_nat i)) as [x Hx]; [lia|].
  exists x. split; exact Hx.
Qed.

Lemma index_out_of_range {A : Type} (a : list A) (i : Z) :
  inRange (length a) i = false -> Js.index a i = None.
Proof.
  unfold inRange, Js.index. intros H.
  destruct (0 <=? i) eqn:H0; [|reflexivity].
  simpl in H. apply Z.ltb_ge in H. apply Z.leb_le in H0.
  apply lookup_ge_None. lia.
Qed.

Lemma index_Some {A : Type} (a : list A) (i : Z) (x : A) :
  Js.index a i = Some x -> 0 <= i /\ a !! Z.to_nat i = Some x.
Proof.
  unfold Js.index. destruct (0 <=? i) eqn:H0; [|discriminate].
  apply Z.leb_le in H0. auto.
Qed.

(** The curated set, position by position. *)
Lemma finalFrames_positions (candidates : list CapturedFrame.t) (selectedIndices : list Z) :
  Forall2 (fun idx f => candidates !! Z.to_nat idx = Some f)
    (filter (fun idx => inRange (length candidates) idx = true) selectedIndices)
    (finalFrames candidates selectedIndices).
Proof.
  induction selectedIndices as [|idx rest IH]; [constructor|].
  rewrite finalFrames_cons, filter_cons.
  destruct (decide (inRange (length candidates) idx = true)) as [Hin|Hout].
  - destruct (index_in_range candidates idx Hin) as (f & -> & Hf).
    constructor; assumption.
  - apply not_true_is_false in Hout. rewrite (index_out_of_range _ _ Hout). exact IH.
Qed.


(** C3 (as the code has it).  The selection result is not deduplicated: for
    pairwise distinct candidates, the candidate at index [i] appears in the
    curated set exactly as often as [i] appears in the selection result. *)
Theorem finalFrames_keeps_repeated_indices
  (candidates : list CapturedFrame.t) (selectedIndices : list Z)
  (i : Z) (f : CapturedFrame.t) :
  NoDup candidates ->
  Js.index candidates i = Some f ->
  count_occ CapturedFrame_eq_dec (finalFrames candidates selectedIndices) f
  = count_occ Z.eq_dec selectedIndices i.
Proof.
  intros Hnd Hi. apply index_Some in Hi as [Hi0 Hif].
  induction selectedIndices as [|j rest IH]; [reflexivity|].
  rewrite finalFrames_cons.
  destruct (Z.eq_dec j i) as [->|Hne].
  - unfold Js.index at 1. destruct (Z.leb_spec 0 i); [|lia].
    rewrite Hif, !count_occ_cons_eq by reflexivity. by rewrite IH.
  - rewrite (count_occ_cons_neq _ _ Hne).
    destruct (Js.index candidates j) as [g|] eqn:Hj; [|exact IH].
    apply index_Some in Hj as [Hj0 Hjg].
    rewrite count_occ_cons_neq; [exact IH|].
    intros ->. apply Hne.
    pose proof (NoDup_lookup _ _ _ _ Hnd Hjg Hif). lia.
Qed.

(** The count on three distinct frames and the selection result [2, 0, 2]. *)
Lemma finalFrames_keeps_repeated_indices_witness :
  NoDup [Samples.frameA; Samples.frameB; Samples.frameC]
  /\ Js.index [Samples.frameA; Samples.frameB; Samples.frameC] 2 = Some Samples.frameC
  /\ count_occ CapturedFrame_eq_dec
       (finalFrames [Samples.frameA; Samples.frameB; Samples.frameC] [2; 0; 2])
       Samples.frameC
     = count_occ Z.eq_dec [2; 0; 2] 2.
Proof.
  assert (Hnd : NoDup [Samples.frameA; Samples.frameB; Samples.frameC]).
  { apply (bool_decide_unpack _). vm_compute. exact I. }
  split; [exact Hnd|]. split; [reflexivity|].
  apply (finalFrames_keeps_repeated_indices
           [Samples.frameA; Samples.frameB; Samples.frameC] [2; 0; 2] 2 Samples.frameC);
    [exact Hnd|reflexivity].
Defined.

(** C3 as stated fails: when the selector answers [2, 2], the third
    candidate of the scan is adopted twice. *)
Lemma finalFrames_repeats_frame :
  finalFrames [Samples.frameA; Samples.frameB; Samples.frameC] [2; 2]
  = [Samples.frameC; Samples.frameC]
  /\ frames (snd (handleAutoCapture Samples.envRepeatedSelection initialState))
     = [frameAt "data:image/jpeg;base64,2" "2" (timestampAt 26 3);
        frameAt "data:image/jpeg;base64,2" "2" (timestampAt 26 3)].
Proof. split; [reflexivity|]. vm_compute. reflexivity. Qed.

End SelectionFacts.

(** ** The scan loop *)

Module ScanFacts.
Import FrameCapturer Props Eff.

Ltac run_state :=
  unfold addLog;
  unfold setFrames, updateFrames, setIsPlaying, setIsAnalyzing, setStatusMessage,
    updateDebugLogs, seek, pause, countCapture, writeConsole, alert, recordRankingCall;
  unfold tryCatch, tryFinally, bind, ret, throw, gets, modify;
  cbn [frames isPlaying isAnalyzing statusMessage debugLogs currentTime paused
       captures console alerts seeks rankingCalls fst snd].

(** The same evaluation for a run without a branch on the environment:
    every step is reduced before the next is unfolded. *)
Ltac eval_state :=
  cbn [tryCatch tryFinally bind ret throw gets modify
       addLog setFrames updateFrames setIsPlaying setIsAnalyzing setStatusMessage
       updateDebugLogs seek pause countCapture writeConsole alert recordRankingCall
       frames isPlaying isAnalyzing statusMessage debugLogs currentTime paused
       captures console alerts seeks rankingCalls fst snd].

Lemma scanned_refl (s : State) : scanned s s [] [] 0.
Proof. unfold scanned. rewrite !app_nil_r. repeat split; lia. Qed.

Lemma scanned_trans (s s1 s2 : State) ts ts' lines lines' k k' :
  scanned s s1 ts lines k -> scanned s1 s2 ts' lines' k' ->
  scanned s s2 (ts ++ ts') (lines ++ lines') (k + k').
Proof.
  unfold scanned. intros (F1 & A1 & R1 & S1 & C1 & K1) (F2 & A2 & R2 & S2 & C2 & K2).
  rewrite F2, A2, R2, S2, C2, K2, F1, A1, R1, S1, C1, K1, !app_assoc.
  repeat split; lia.
Qed.

(** Every call of [createFrameFromVideo] exports a frame, yields [null] or throws. *)
Lemma capture_cases (env : Env) (n : nat) :
  (exists dataUrl randomId, canvasMounted env = true /\ draw env n = Exported dataUrl randomId)
  \/ yieldsNull env n = true
  \/ captureThrows env n = true.
Proof.
  unfold yieldsNull, captureThrows.
  destruct (canvasMounted env); [|auto].
  destruct (draw env n) as [|u r|m]; eauto.
Qed.

Lemma scanLoop_step_exported env D i rest acc s u r :
  canvasMounted env = true -> draw env (captures s) = Exported u r ->
  exists s1, scanLoop env D (i :: rest) acc s
             = scanLoop env D rest (acc ++ [frameAt u r (timestampAt D i)]) s1
    /\ scanned s s1 [timestampAt D i] [] 1.
Proof.
  intros Hc Hd. cbn [scanLoop]. unfold createFrameFromVideo. run_state.
  rewrite Hc, Hd. run_state.
  eexists. split; [reflexivity|].
  unfold scanned; cbn. rewrite !app_nil_r. repeat split; lia.
Qed.

Lemma scanLoop_step_null env D i rest acc s :
  yieldsNull env (captures s) = true ->
  exists s1, scanLoop env D (i :: rest) acc s = scanLoop env D rest acc s1
    /\ scanned s s1 [timestampAt D i] [skipLine (timestampAt D i)] 1.
Proof.
  unfold yieldsNull. intros Hn. cbn [scanLoop]. unfold createFrameFromVideo. run_state.
  destruct (canvasMounted env).
  - destruct (draw env (captures s)); try discriminate. run_state.
    eexists. split; [reflexivity|].
    unfold scanned; cbn. repeat split; lia.
  - run_state. eexists. split; [reflexivity|].
    unfold scanned; cbn. repeat split; lia.
Qed.

Lemma scanLoop_step_throws env D i rest acc s :
  captureThrows env (captures s) = true ->
  exists message s1,
    scanLoop env D (i :: rest) acc s = (Thrown (captureErrorPrefix ++ message)%string, s1)
    /\ draw env (captures s) = ExportThrows message
    /\ scanned s s1 [timestampAt D i] [ConsoleError "Frame creation error:" message] 1.
Proof.
  unfold captureThrows. intros Hn. cbn [scanLoop]. unfold createFrameFromVideo. run_state.
  destruct (canvasMounted env); [|discriminate].
  destruct (draw env (captures s)) as [| |message]; try discriminate. run_state.
  exists message. eexists. split; [reflexivity|]. split; [reflexivity|].
  unfold scanned; cbn. repeat split; lia.
Qed.

Lemma collected_exported env D i rest n u r :
  canvasMounted env = true -> draw env n = Exported u r ->
  collected env D (i :: rest) n = frameAt u r (timestampAt D i) :: collected env D rest (S n)
  /\ skipped env D (i :: rest) n = skipped env D rest (S n)
  /\ yieldsNull env n = false.
Proof. intros Hc Hd. unfold yieldsNull. simpl. unfold yieldsNull. by rewrite Hc, Hd. Qed.

Lemma collected_null env D i rest n :
  yieldsNull env n = true ->
  collected env D (i :: rest) n = collected env D rest (S n)
  /\ skipped env D (i :: rest) n = timestampAt D i :: skipped env D rest (S n).
Proof.
  intros Hn. simpl. rewrite Hn. split; [|reflexivity].
  unfold yieldsNull in Hn. destruct (canvasMounted env); [|reflexivity].
  destruct (draw env n); try discriminate; reflexivity.
Qed.

(** A scan in which no capture throws runs through all of its indices: it
    returns the collected frames, has sought every timestamp in turn, and has
    logged every skipped one. *)
Lemma scanLoop_completes env D : forall remaining acc s,
  (forall j, (j < length remaining)%nat -> captureThrows env (captures s + j) = false) ->
  exists s',
    scanLoop env D remaining acc s
    = (Returned (acc ++ collected env D remaining (captures s)), s')
    /\ scanned s s' (map (timestampAt D) remaining)
         (map skipLine (skipped env D remaining (captures s))) (length remaining).
Proof.
  induction remaining as [|i rest IH]; intros acc s Hno.
  - exists s. simpl. rewrite app_nil_r. split; [reflexivity|apply scanned_refl].
  - assert (Hrest : forall s1, captures s1 = (captures s + 1)%nat ->
               forall j, (j < length rest)%nat -> captureThrows env (captures s1 + j) = false).
    { intros s1 H1 j Hj. rewrite H1. replace (captures s + 1 + j)%nat with (captures s + S j)%nat by lia.
      apply Hno. simpl. lia. }
    destruct (capture_cases env (captures s)) as [(u & r & Hc & Hd)|[Hn|Ht]].
    + destruct (scanLoop_step_exported env D i rest acc s u r Hc Hd) as (s1 & Hstep & Hs1).
      destruct (IH (acc ++ [frameAt u r (timestampAt D i)]) s1) as (s' & Hrun & Hs').
      { apply Hrest, Hs1. }
      destruct (collected_exported env D i rest (captures s) u r Hc Hd) as (-> & -> & _).
      assert (Hk : captures s1 = S (captures s)) by (destruct Hs1 as (_ & _ & _ & _ & _ & ->); lia).
      rewrite Hk in Hrun, Hs'.
      exists s'. split.
      * rewrite Hstep, Hrun. by rewrite <- app_assoc.
      * exact (scanned_trans _ _ _ _ _ _ _ _ _ Hs1 Hs').
    + destruct (scanLoop_step_null env D i rest acc s Hn) as (s1 & Hstep & Hs1).
      destruct (IH acc s1) as (s' & Hrun & Hs').
      { apply Hrest, Hs1. }
      destruct (collected_null env D i rest (captures s) Hn) as (-> & ->).
      assert (Hk : captures s1 = S (captures s)) by (destruct Hs1 as (_ & _ & _ & _ & _ & ->); lia).
      rewrite Hk in Hrun, Hs'.
      exists s'. split.
      * by rewrite Hstep, Hrun.
      * exact (scanned_trans _ _ _ _ _ _ _ _ _ Hs1 Hs').
    + specialize (Hno 0%nat). rewrite Nat.add_0_r in Hno.
      rewrite Hno in Ht; [discriminate|simpl; lia].
Qed.

(** Whenever the loop returns, it returns the collected frames. *)
Lemma scanLoop_returns env D : forall remaining acc s candidates s',
  scanLoop env D remaining acc s = (Returned candidates, s') ->
  candidates = acc ++ collected env D remaining (captures s).
Proof.
  induction remaining as [|i rest IH]; intros acc s candidates s' Hrun.
  - simpl in Hrun. unfold ret in Hrun. injection Hrun as <- _. by rewrite app_nil_r.
  - destruct (capture_cases env (captures s)) as [(u & r & Hc & Hd)|[Hn|Ht]].
    + destruct (scanLoop_step_exported env D i rest acc s u r Hc Hd) as (s1 & Hstep & Hs1).
      destruct (collected_exported env D i rest (captures s) u r Hc Hd) as (-> & _ & _).
      rewrite Hstep in Hrun. apply IH in Hrun.
      destruct Hs1 as (_ & _ & _ & _ & _ & Hk).
      rewrite Hrun, Hk, <- app_assoc. simpl. do 3 f_equal. lia.
    + destruct (scanLoop_step_null env D i rest acc s Hn) as (s1 & Hstep & Hs1).
      destruct (collected_null env D i rest (captures s) Hn) as (-> & _).
      rewrite Hstep in Hrun. apply IH in Hrun.
      destruct Hs1 as (_ & _ & _ & _ & _ & Hk).
      rewrite Hrun, Hk. do 2 f_equal. lia.
    + destruct (scanLoop_step_throws env D i rest acc s Ht) as (m & s1 & Hstep & _).
      rewrite Hstep in Hrun. discriminate.
Qed.


End ScanFacts.

(** ** The timestamp plan *)

Module TimestampFacts.
Import FrameCapturer Props.

Lemma timestampAt_eq (D : Q) (i : nat) :
  (timestampAt D i == D * inject_Z (Z.of_nat i) / 13)%Q.
Proof.
  unfold timestampAt, interval.
  change (inject_Z (Z.of_nat (steps + 1))) with 13%Q. field.
Qed.


Lemma inject_nat_le (i j : nat) :
  (i <= j)%nat -> (inject_Z (Z.of_nat i) <= inject_Z (Z.of_nat j))%Q.
Proof. intros H. rewrite <- Zle_Qle. lia. Qed.


Lemma timestampAt_le (D : Q) (i j : nat) :
  (0 <= D)%Q -> (i <= j)%nat -> (timestampAt D i <= timestampAt D j)%Q.
Proof.
  intros HD Hij. rewrite !timestampAt_eq.
  pose proof (inject_nat_le i j Hij) as H.
  apply Qle_shift_div_l; [reflexivity|].
  field_simplify.
  nra.
Qed.
End TimestampFacts.

(** ** The frames a scan collects *)

Module CollectFacts.
Import FrameCapturer Props.

Lemma seq_sorted (a n : nat) : StronglySorted lt (seq a n).
Proof.
  revert a. induction n as [|n IH]; intros a; simpl; constructor; [apply IH|].
  apply Forall_forall. intros x Hx. apply list_elem_of_In, in_seq in Hx. lia.
Qed.

Lemma collected_elem env D : forall remaining n f,
  f ∈ collected env D remaining n ->
  exists i, i ∈ remaining /\ CapturedFrame.timestamp f = timestampAt D i.
Proof.
  induction remaining as [|i rest IH]; intros n f Hf; simpl in Hf.
  - by apply elem_of_nil in Hf.
  - assert (Hrest : f ∈ collected env D rest (S n) ->
                    exists j, j ∈ i :: rest /\ CapturedFrame.timestamp f = timestampAt D j).
    { intros H. destruct (IH _ _ H) as (j & Hj & Ht). exists j. split; [by right|exact Ht]. }
    destruct (canvasMounted env); [|auto].
    destruct (draw env n) as [|u r|m]; auto.
    apply elem_of_cons in Hf as [->|Hf]; [|auto].
    exists i. split; [by left|reflexivity].
Qed.

(** The collected frames are ordered as the loop indices are. *)
Lemma collected_sorted (R : relation Q) env D :
  (forall i j, (i < j)%nat -> R (timestampAt D i) (timestampAt D j)) ->
  forall remaining n,
    StronglySorted lt remaining ->
    StronglySorted (fun a b => R (CapturedFrame.timestamp a) (CapturedFrame.timestamp b))
      (collected env D remaining n).
Proof.
  intros HR. induction remaining as [|i rest IH]; intros n Hs; simpl; [constructor|].
  apply StronglySorted_inv in Hs as [Hrest Hi].
  destruct (canvasMounted env); [|by apply IH].
  destruct (draw env n) as [|u r|m]; try by apply IH.
  constructor; [by apply IH|].
  apply Forall_forall. intros f Hf.
  destruct (collected_elem _ _ _ _ _ Hf) as (j & Hj & ->). simpl.
  apply HR. rewrite Forall_forall in Hi. by apply Hi.
Qed.


Lemma collected_chronological env D remaining n :
  (0 <= D)%Q -> StronglySorted lt remaining -> Chronological (collected env D remaining n).
Proof.
  intros HD. apply (collected_sorted Qle). intros i j Hij.
  apply TimestampFacts.timestampAt_le; [exact HD|lia].
Qed.

Lemma skipped_length env D : forall remaining n,
  length (skipped env D remaining n) = nullCount env n (length remaining).
Proof.
  induction remaining as [|i rest IH]; intros n; simpl; [reflexivity|].
  destruct (yieldsNull env n); simpl; by rewrite IH.
Qed.

(** A capture that does not throw either adds a frame or is skipped. *)
Lemma collected_length env D : forall remaining n,
  (forall j, (j < length remaining)%nat -> captureThrows env (n + j) = false) ->
  (length (collected env D remaining n) + nullCount env n (length remaining)
   = length remaining)%nat.
Proof.
  induction remaining as [|i rest IH]; intros n Hno; simpl; [reflexivity|].
  assert (Hrest : forall j, (j < length rest)%nat -> captureThrows env (S n + j) = false).
  { intros j Hj. replace (S n + j)%nat with (n + S j)%nat by lia. apply Hno. simpl. lia. }
  specialize (IH (S n) Hrest).
  specialize (Hno 0%nat). rewrite Nat.add_0_r in Hno.
  unfold yieldsNull, captureThrows in *.
  destruct (canvasMounted env); [|lia].
  destruct (draw env n) as [|u r|m]; simpl; try lia.
  discriminate Hno. simpl. lia.
Qed.


End CollectFacts.

(** ** The deferred task of [handleAutoCapture] *)

Module TaskFacts.
Import FrameCapturer Props Eff ScanFacts.

(** Up to the loop the task only logs the duration and pauses the video. *)
Lemma autoCaptureBody_prelude env D s :
  exists s0,
    autoCaptureBody env D s = bind (scanLoop env D (seq 1 steps) []) (sendToAI env) s0
    /\ scanned s s0 [] [ConsoleLog ("[AutoSelect] Duration: " ++ Js.toFixed1 D ++ "s")%string] 0.
Proof.
  unfold autoCaptureBody. run_state.
  eexists. split; [reflexivity|].
  unfold scanned; cbn. rewrite !app_nil_r. repeat split; lia.
Qed.

(** With no candidate the selection block throws and calls nobody. *)
Lemma sendToAI_empty env s : sendToAI env [] s = (Thrown noFramesMessage, s).
Proof. reflexivity. Qed.

(** With candidates the selector is called once, with all of them. *)
Lemma sendToAI_nonempty env candidates s :
  candidates <> [] ->
  exists r s1 lines,
    sendToAI env candidates s = (r, s1)
    /\ rankingCalls s1 = rankingCalls s ++ [candidates]
    /\ seeks s1 = seeks s /\ alerts s1 = alerts s
    /\ console s1 = console s ++ lines
    /\ match filterBestFrames env candidates with
       | Selected selectedIndices =>
           r = Returned tt /\ frames s1 = finalFrames candidates selectedIndices
       | RankingThrows message => r = Thrown message /\ frames s1 = frames s
       end.
Proof.
  intros Hne. unfold sendToAI.
  destruct candidates as [|c cs]; [done|]. cbn [length Nat.ltb Nat.leb].
  unfold awaitFilterBestFrames. run_state.
  destruct (filterBestFrames env (c :: cs)) as [sel|m]; run_state;
    do 3 eexists; (split; [reflexivity|]); cbn; rewrite <- ?app_assoc; repeat split; reflexivity.
Qed.

(** The [catch] and [finally] blocks: the task itself never throws; an
    error of the [try] block ends as an alert. *)
Lemma autoCaptureTask_result env D s r s1 :
  autoCaptureBody env D s = (r, s1) ->
  exists s2 lines,
    autoCaptureTask env D s = (Returned tt, s2)
    /\ frames s2 = frames s1 /\ rankingCalls s2 = rankingCalls s1 /\ seeks s2 = seeks s1
    /\ console s2 = console s1 ++ lines
    /\ isAnalyzing s2 = false
    /\ alerts s2 = alerts s1 ++ match r with
                                | Returned _ => []
                                | Thrown message => [failureAlert message]
                                end.
Proof.
  intros Hbody. unfold autoCaptureTask. unfold tryFinally, tryCatch. rewrite Hbody.
  destruct r as [[]|m]; eval_state.
  - eexists. exists []. split; [reflexivity|]. cbn. rewrite !app_nil_r.
    repeat split; reflexivity.
  - do 2 eexists. split; [reflexivity|]. cbn. rewrite <- ?app_assoc.
    repeat split; reflexivity.
Qed.



End TaskFacts.

(** ** The auto-select pipeline *)

Module AutoCaptureFacts.
Import FrameCapturer Props Eff ScanFacts CollectFacts TaskFacts.


Lemma allNull_spec env from count :
  allNull env from count = true ->
  forall j, (j < count)%nat -> yieldsNull env (from + j) = true.
Proof.
  unfold allNull. rewrite forallb_forall. intros H j Hj. apply H, in_seq. lia.
Qed.

Lemma yieldsNull_not_throws env n : yieldsNull env n = true -> captureThrows env n = false.
Proof.
  unfold yieldsNull, captureThrows. destruct (canvasMounted env); [|reflexivity].
  destruct (draw env n); (reflexivity || discriminate).
Qed.

Lemma nullCount_all env : forall count from,
  (forall j, (j < count)%nat -> yieldsNull env (from + j) = true) ->
  nullCount env from count = count.
Proof.
  induction count as [|count IH]; intros from H; simpl; [reflexivity|].
  pose proof (H 0%nat) as H0. rewrite Nat.add_0_r in H0. rewrite H0 by lia.
  rewrite IH; [reflexivity|].
  intros j Hj. replace (S from + j)%nat with (from + S j)%nat by lia. apply H. lia.
Qed.

Lemma collected_length_steps env D n :
  (forall j, (j < steps)%nat -> captureThrows env (n + j) = false) ->
  (length (collected env D (seq 1 steps) n) + nullCount env n steps = steps)%nat.
Proof.
  intros Hno. pose proof (collected_length env D (seq 1 steps) n) as H.
  rewrite length_seq in H. apply H. exact Hno.
Qed.

(** The run of the task when no capture of the scan throws. *)
Lemma autoCaptureTask_scan env D s :
  (forall j, (j < steps)%nat -> captureThrows env (captures s + j) = false) ->
  exists s1,
    autoCaptureBody env D s = sendToAI env (collected env D (seq 1 steps) (captures s)) s1
    /\ rankingCalls s1 = rankingCalls s /\ alerts s1 = alerts s /\ frames s1 = frames s
    /\ seeks s1 = seeks s ++ map (timestampAt D) (seq 1 steps)
    /\ exists line,
         console s1 = console s ++ line
                        :: map skipLine (skipped env D (seq 1 steps) (captures s)).
Proof.
  intros Hno.
  destruct (autoCaptureBody_prelude env D s) as (s0 & Hbody & F0 & A0 & R0 & S0 & C0 & K0).
  rewrite Nat.add_0_r in K0. rewrite app_nil_r in S0.
  destruct (scanLoop_completes env D (seq 1 steps) [] s0) as (s1 & Hscan & F1 & A1 & R1 & S1 & C1 & K1).
  { rewrite K0, length_seq. exact Hno. }
  rewrite K0 in Hscan, C1. rewrite app_nil_l in Hscan.
  exists s1. split.
  { rewrite Hbody. unfold bind at 1. by rewrite Hscan. }
  rewrite R1, R0, A1, A0, F1, F0, S1, S0, C1, C0. repeat split.
  eexists. by rewrite <- app_assoc.
Qed.



(** C6.  When every capture of the scan yields no frame, the [try] block
    throws the error "No valid frames could be captured.", which is not the
    message of any capture error, and the selector is never called: the task
    ends with the failure alert that carries this message. *)
Theorem no_frames_error_without_ranking (env : Env) (D : Q) (s : State) :
  allNull env (captures s) steps = true ->
  exists s1 s2,
    autoCaptureBody env D s = (Thrown noFramesMessage, s1)
    /\ rankingCalls s1 = rankingCalls s
    /\ autoCaptureTask env D s = (Returned tt, s2)
    /\ rankingCalls s2 = rankingCalls s
    /\ alerts s2 = alerts s ++ [failureAlert noFramesMessage]
    /\ (forall message, noFramesMessage <> (captureErrorPrefix ++ message)%string).
Proof.
  intros Hb. pose proof (allNull_spec _ _ _ Hb) as Hall.
  assert (Hno : forall j, (j < steps)%nat -> captureThrows env (captures s + j) = false).
  { intros j Hj. apply yieldsNull_not_throws, Hall, Hj. }
  destruct (autoCaptureTask_scan env D s Hno) as (s1 & Hbody & R1 & A1 & _).
  assert (Hnil : collected env D (seq 1 steps) (captures s) = []).
  { apply length_zero_iff_nil.
    pose proof (collected_length_steps env D (captures s) Hno) as H.
    rewrite (nullCount_all env steps (captures s) Hall) in H. lia. }
  rewrite Hnil, sendToAI_empty in Hbody.
  destruct (autoCaptureTask_result env D s _ s1 Hbody) as (s2 & lines & Htask & _ & R2 & _ & _ & _ & A2).
  exists s1, s2. split; [exact Hbody|]. split; [exact R1|]. split; [exact Htask|].
  split; [by rewrite R2, R1|]. split; [by rewrite A2, A1|].
  intros message. discriminate.
Qed.




(** The scan of a 26-second video in which no capture yields a frame. *)
Lemma no_frames_error_without_ranking_witness :
  allNull Samples.envAllNull (captures initialState) steps = true
  /\ exists s1 s2,
       autoCaptureBody Samples.envAllNull 26 initialState = (Thrown noFramesMessage, s1)
       /\ rankingCalls s1 = rankingCalls initialState
       /\ autoCaptureTask Samples.envAllNull 26 initialState = (Returned tt, s2)
       /\ rankingCalls s2 = rankingCalls initialState
       /\ alerts s2 = alerts initialState ++ [failureAlert noFramesMessage]
       /\ (forall message, noFramesMessage <> (captureErrorPrefix ++ message)%string).
Proof.
  split; [reflexivity|].
  apply (no_frames_error_without_ranking Samples.envAllNull 26 initialState). reflexivity.
Defined.

End AutoCaptureFacts.

(** ** The order of the frame list *)

Module OrderFacts.
Import FrameCapturer Props Eff ScanFacts.

Lemma StronglySorted_filter {A : Type} (R : relation A) (P : A -> Prop)
  `{forall x, Decision (P x)} (l : list A) :
  StronglySorted R l -> StronglySorted R (filter P l).
Proof.
  induction 1 as [|x l Hl IH Hx]; [constructor|].
  rewrite filter_cons. destruct (decide (P x)); [|exact IH].
  constructor; [exact IH|].
  apply Forall_forall. intros y Hy. apply list_elem_of_filter in Hy as [_ Hy].
  rewrite Forall_forall in Hx. by apply Hx.
Qed.

Lemma Chronological_lookup (l : list CapturedFrame.t) :
  Chronological l ->
  forall a b x y, l !! a = Some x -> l !! b = Some y -> (a <= b)%nat -> notAfter x y.
Proof.
  induction 1 as [|z l Hl IH Hz]; intros a b x y Ha Hb Hab; [discriminate|].
  destruct a as [|a], b as [|b]; simpl in *; try lia.
  - injection Ha as <-. injection Hb as <-. unfold notAfter. apply Qle_refl.
  - injection Ha as <-. rewrite Forall_forall in Hz.
    apply Hz. eapply list_elem_of_lookup_2; eassumption.
  - eapply IH; eauto. lia.
Qed.

Lemma selected_after (candidates : list CapturedFrame.t) (i : Z) (f : CapturedFrame.t) :
  Chronological candidates ->
  candidates !! Z.to_nat i = Some f ->
  forall indices selected,
    Forall2 (fun idx g => candidates !! Z.to_nat idx = Some g) indices selected ->
    Forall (Z.le i) indices ->
    Forall (notAfter f) selected.
Proof.
  intros Hc Hf. induction 1 as [|j g indices selected Hj _ IH]; intros Hle; [constructor|].
  apply Forall_cons in Hle as [Hij Hle].
  constructor; [|by apply IH].
  eapply (Chronological_lookup _ Hc); eauto. lia.
Qed.

Lemma selected_chronological (candidates : list CapturedFrame.t) :
  Chronological candidates ->
  forall indices selected,
    Forall2 (fun idx g => candidates !! Z.to_nat idx = Some g) indices selected ->
    StronglySorted Z.le indices ->
    Chronological selected.
Proof.
  intros Hc. induction 1 as [|i f indices selected Hi Hrest IH]; intros Hs; [constructor|].
  apply StronglySorted_inv in Hs as [Hs Hle].
  constructor; [by apply IH|].
  eapply selected_after; eauto.
Qed.

(** The first two frames of a chronological list are in order. *)
Lemma Chronological_head (l : list CapturedFrame.t) :
  Chronological l ->
  match l with
  | a :: b :: _ => (CapturedFrame.timestamp a <= CapturedFrame.timestamp b)%Q
  | _ => True
  end.
Proof.
  intros H. destruct l as [|a [|b l]]; try exact I.
  apply StronglySorted_inv in H as [_ H]. apply Forall_cons in H as [H _]. exact H.
Qed.

(** What [captureFrame] does to the frame list: nothing, or one frame,
    stamped with the video's current time, added at the end. *)
Lemma captureFrame_frames env s :
  frames (snd (captureFrame env s)) = frames s
  \/ exists dataUrl randomId,
       frames (snd (captureFrame env s))
       = frames s ++ [frameAt dataUrl randomId (currentTime s)].
Proof.
  unfold captureFrame, createFrameFromVideo.
  destruct (videoMounted env); [|by left]. run_state.
  destruct (canvasMounted env); [|by left].
  destruct (draw env (captures s)) as [|u r|m]; run_state; cbn; eauto.
Qed.

(** C7 (as the code has it).  The frame list is never sorted when it is
    updated, so its order is what the updates make it.  Removal keeps a
    chronological list chronological.  A manual capture adds its frame at the
    end, which keeps the order when no frame of the list is later than the
    video's current time.  The candidates a scan returns are chronological
    (for a duration that is not negative).  Adopting the selection result
    keeps the order when the in-range indices of the result do not decrease. *)
Theorem frame_list_order_preservation :
  (forall id s,
      Chronological (frames s) -> Chronological (frames (snd (removeFrame id s))))
  /\ (forall env s,
         Chronological (frames s) ->
         Forall (fun f => (CapturedFrame.timestamp f <= currentTime s)%Q) (frames s) ->
         Chronological (frames (snd (captureFrame env s))))
  /\ (forall env D s candidates s',
         (0 <= D)%Q ->
         scanLoop env D (seq 1 steps) [] s = (Returned candidates, s') ->
         Chronological candidates)
  /\ (forall candidates selectedIndices,
         Chronological candidates ->
         StronglySorted Z.le
           (filter (fun idx => inRange (length candidates) idx = true) selectedIndices) ->
         Chronological (finalFrames candidates selectedIndices)).
Proof.
  repeat split.
  - intros id s Hs. unfold removeFrame. run_state. by apply StronglySorted_filter.
  - intros env s Hs Hle.
    destruct (captureFrame_frames env s) as [->|(u & r & ->)]; [exact Hs|].
    apply StronglySorted_app_2; [|exact Hs|repeat constructor].
    intros x y Hx Hy. apply list_elem_of_singleton in Hy as ->.
    rewrite Forall_forall in Hle. by apply Hle.
  - intros env D s candidates s' HD Hrun.
    apply scanLoop_returns in Hrun as ->. rewrite app_nil_l.
    apply CollectFacts.collected_chronological; [exact HD|apply CollectFacts.seq_sorted].
  - intros candidates selectedIndices Hc Hs.
    eapply selected_chronological; [exact Hc| |exact Hs].
    apply SelectionFacts.finalFrames_positions.
Qed.

(** Each of the four updates on a list of three frames at seconds 1, 2 and 3. *)
Lemma frame_list_order_preservation_witness :
  Chronological (frames (snd (removeFrame "b" Samples.stateABC)))
  /\ Chronological (frames (snd (captureFrame Samples.envAllExported Samples.stateABC)))
  /\ Chronological (fst (Samples.scanOf Samples.envTwoNulls))
  /\ Chronological
       (finalFrames [Samples.frameA; Samples.frameB; Samples.frameC] [0; 7; 2; 2]).
Proof.
  assert (Habc : Chronological [Samples.frameA; Samples.frameB; Samples.frameC]).
  { repeat constructor; vm_compute; discriminate. }
  destruct frame_list_order_preservation as (Hremove & Hcapture & Hscan & Hadopt).
  split; [|split; [|split]].
  - apply Hremove. exact Habc.
  - apply Hcapture; [exact Habc|]. repeat constructor; vm_compute; discriminate.
  - apply (Hscan Samples.envTwoNulls 26%Q initialState _
             (snd (Samples.scanOf Samples.envTwoNulls))); [vm_compute; discriminate|].
    vm_compute. reflexivity.
  - apply Hadopt; [exact Habc|]. repeat constructor; lia.
Defined.

(** C7 as stated fails twice.  The selector answers [1, 0] for candidates
    at seconds 2 and 4: the adopted frame list holds second 4 before second
    2.  And a manual capture at second 1, into a list that holds a frame of
    second 2, puts second 1 after second 2. *)
Lemma selection_can_break_chronology :
  map CapturedFrame.timestamp
    (frames (snd (handleAutoCapture Samples.envReversedSelection initialState)))
  = [timestampAt 26 2; timestampAt 26 1]
  /\ (timestampAt 26 1 < timestampAt 26 2)%Q
  /\ ~ Chronological (frames (snd (handleAutoCapture Samples.envReversedSelection initialState)))
  /\ Chronological (frames Samples.stateAtOne)
  /\ map CapturedFrame.timestamp
       (frames (snd (captureFrame Samples.envAllExported Samples.stateAtOne)))
     = [2%Q; 1%Q]
  /\ ~ Chronological (frames (snd (captureFrame Samples.envAllExported Samples.stateAtOne))).
Proof.
  split; [vm_compute; reflexivity|]. split; [reflexivity|]. split; [|split; [|split]].
  - intros H. apply Chronological_head in H. vm_compute in H. by apply H.
  - repeat constructor.
  - vm_compute. reflexivity.
  - intros H. apply Chronological_head in H. vm_compute in H. by apply H.
Qed.

End OrderFacts.

(** ** Handout generation *)

Module ServiceFacts.
Import GeminiService Props Eff.

Ltac run_service :=
  unfold awaitGenerateContent, spread, sortInPlace, readArray, newClient;
  unfold setHeap, recordRequest, consoleError;
  unfold tryCatch, tryFinally, bind, ret, throw, gets, modify;
  cbn [heap requests console fst snd].

Lemma parseResponse_outcome (text : option string) (s : State) :
  parseResponse text s
  = (match text with
     | None | Some EmptyString => Thrown noResponseMessage
     | Some t =>
         match Json.parse t with
         | Some v => Returned v
         | None => Thrown syntaxErrorMessage
         end
     end, s).
Proof.
  unfold parseResponse, ret, throw.
  destruct text as [[|c t]|]; try reflexivity.
  destruct (Json.parse (String c t)); reflexivity.
Qed.

(** The run of [generateHandoutContent] once the client exists and the
    argument is an array: a sorted copy is made at a fresh reference, one
    request is sent, and the response is parsed. *)
Lemma generateHandoutContent_run env frames s fs :
  clientError env = None ->
  heap s !! frames = Some fs ->
  exists s',
    generateHandoutContent env frames s
    = (match generateContent env (handoutRequest (Js.sort byTimestamp fs)) with
       | ApiThrows message => Thrown message
       | ApiResponds text => fst (parseResponse text s)
       end, s')
    /\ heap s' = <[fresh (dom (heap s)) := Js.sort byTimestamp fs]>
                   (<[fresh (dom (heap s)) := fs]> (heap s))
    /\ requests s' = requests s ++ [handoutRequest (Js.sort byTimestamp fs)].
Proof.
  intros Hclient Hfs. unfold generateHandoutContent. run_service.
  rewrite Hclient, Hfs. run_service.
  repeat (rewrite lookup_insert_eq; run_service).
  destruct (generateContent env (handoutRequest (Js.sort byTimestamp fs))) as [m|text].
  - eexists. split; [reflexivity|]. split; reflexivity.
  - rewrite !parseResponse_outcome. cbn [fst].
    destruct text as [[|c t]|]; run_service;
      try (eexists; split; [reflexivity|]; split; reflexivity).
    destruct (Json.parse (String c t)); run_service;
      eexists; (split; [reflexivity|]); split; reflexivity.
Qed.

(** A call that stops before the copy leaves the heap as it was. *)
Lemma generateHandoutContent_early env frames s :
  clientError env <> None \/ heap s !! frames = None ->
  heap (snd (generateHandoutContent env frames s)) = heap s
  /\ requests (snd (generateHandoutContent env frames s)) = requests s.
Proof.
  intros H. unfold generateHandoutContent. run_service.
  destruct (clientError env) as [m|]; run_service; [split; reflexivity|].
  destruct H as [H|H]; [done|]. rewrite H. run_service. split; reflexivity.
Qed.

(** C5 (as the code has it).  The payload is parsed, not validated.  With a
    client and an array of frames, a response without text or with an empty
    text fails with "No response from Gemini", a text that is not JSON fails
    with the parser's error, and any text that parses is returned as it
    parsed, whether or not it has the members of the handout schema. *)
Theorem generateHandoutContent_returns_what_parses
  (env : Env) (frames : loc) (s : State) (fs : list CapturedFrame.t)
  (text : option string) :
  clientError env = None ->
  heap s !! frames = Some fs ->
  generateContent env (handoutRequest (Js.sort byTimestamp fs)) = ApiResponds text ->
  (text = None \/ text = Some EmptyString ->
     fst (generateHandoutContent env frames s) = Thrown noResponseMessage)
  /\ (forall t, text = Some t -> t <> EmptyString -> Json.parse t = None ->
        fst (generateHandoutContent env frames s) = Thrown syntaxErrorMessage)
  /\ (forall t v, text = Some t -> Json.parse t = Some v ->
        fst (generateHandoutContent env frames s) = Returned v).
Proof.
  intros Hclient Hfs Htext.
  destruct (generateHandoutContent_run env frames s fs Hclient Hfs) as (s' & Hrun & _).
  rewrite Hrun, Htext, parseResponse_outcome. cbn [fst].
  split; [|split].
  - intros [->| ->]; reflexivity.
  - intros t -> Hne Hparse. destruct t; [done|]. by rewrite Hparse.
  - intros t v -> Hparse. destruct t; [discriminate Hparse|]. by rewrite Hparse.
Qed.

(** A payload that is JSON but no handout at all is returned as it parsed. *)
Lemma generateHandoutContent_returns_what_parses_witness :
  fst (generateHandoutContent (Samples.answering "[1, 2]") 0%nat Samples.serviceState)
  = Returned (Json.Array [Json.Number 1; Json.Number 2]).
Proof.
  refine (proj2 (proj2 (generateHandoutContent_returns_what_parses
    (Samples.answering "[1, 2]") 0%nat Samples.serviceState
    [Samples.frameC; Samples.frameB; Samples.frameA] (Some "[1, 2]"%string)
    _ _ _)) "[1, 2]"%string _ _ _); reflexivity.
Defined.

(** C5 as stated fails: the payload [{"title":"Only a title"}] is returned
    as the document, though it has neither a summary nor steps and does not
    conform to the handout schema. *)
Lemma generateHandoutContent_partial_document :
  fst (generateHandoutContent (Samples.answering Samples.titleOnly) 0%nat Samples.serviceState)
  = Returned (Json.Object [("title"%string, Json.Str "Only a title")])
  /\ Json.getField "summary" (Json.Object [("title"%string, Json.Str "Only a title")]) = None
  /\ Json.getField "steps" (Json.Object [("title"%string, Json.Str "Only a title")]) = None
  /\ conforms HANDOUT_SCHEMA (Json.Object [("title"%string, Json.Str "Only a title")]) = false.
Proof. vm_compute. repeat split; reflexivity. Qed.



(** Sorting through the caller's own reference would have changed the
    caller's array: the heap tells the two apart. *)
Lemma sortInPlace_changes_the_array :
  heap (snd (sortInPlace byTimestamp 0%nat Samples.serviceState)) !! 0%nat
  = Some [Samples.frameA; Samples.frameB; Samples.frameC].
Proof. vm_compute. reflexivity. Qed.

(** C10.  After a call of [generateHandoutContent], however it ends, every
    array that was on the heap, the caller's above all, holds the elements it
    held before, in the same order: the sort works on a copy at a fresh
    reference. *)
Theorem generateHandoutContent_keeps_caller_array
  (env : Env) (frames : loc) (s : State) :
  heap (snd (generateHandoutContent env frames s)) !! frames = heap s !! frames
  /\ (forall a elements,
        heap s !! a = Some elements ->
        heap (snd (generateHandoutContent env frames s)) !! a = Some elements).
Proof.
  assert (Hall : forall a elements,
             heap s !! a = Some elements ->
             heap (snd (generateHandoutContent env frames s)) !! a = Some elements).
  { intros a elements Ha.
    destruct (clientError env) as [m|] eqn:Hclient.
    { destruct (generateHandoutContent_early env frames s) as [-> _]; [left; by rewrite Hclient|done]. }
    destruct (heap s !! frames) as [fs|] eqn:Hfs.
    - destruct (generateHandoutContent_run env frames s fs Hclient Hfs) as (s' & Hrun & Hheap & _).
      rewrite Hrun. cbn [snd]. rewrite Hheap.
      assert (Hne : fresh (dom (heap s)) <> a).
      { intros <-. apply (is_fresh (dom (heap s))). apply elem_of_dom. eauto. }
      by rewrite !lookup_insert_ne.
    - destruct (generateHandoutContent_early env frames s) as [-> _]; [by right|done]. }
  split; [|exact Hall].
  destruct (heap s !! frames) as [fs|] eqn:Hfs; [by apply Hall|].
  destruct (generateHandoutContent_early env frames s) as [-> _]; [by right|done].
Qed.

(** The caller's array, given in reverse chronological order, after the call. *)
Lemma generateHandoutContent_keeps_caller_array_witness :
  heap (snd (generateHandoutContent (Samples.answering "{}") 0%nat Samples.serviceState))
    !! 0%nat
  = Some [Samples.frameC; Samples.frameB; Samples.frameA].
Proof.
  apply (proj2 (generateHandoutContent_keeps_caller_array
                  (Samples.answering "{}") 0%nat Samples.serviceState)).
  reflexivity.
Defined.

End ServiceFacts.

(** ** The display *)

Module DisplayFacts.
Import HandoutDisplay DisplayProps Props Eff.

(** A step is rendered without an error, with a picture exactly when it has an image. *)
Lemma renderStep_returns (s : StepWithImage) : renderStep s tt = (Returned (viewOf s), tt).
Proof.
  unfold renderStep, renderImage, readDataUrl, viewOf, bind, ret.
  destruct s as [st [f|]]; reflexivity.
Qed.

Lemma renderSteps_returns (l : list StepWithImage) :
  renderSteps l tt = (Returned (map viewOf l), tt).
Proof.
  induction l as [|s l IH]; [reflexivity|].
  cbn [renderSteps map]. unfold bind at 1. rewrite renderStep_returns.
  unfold bind at 1. rewrite IH. reflexivity.
Qed.

Lemma stepsWithImages_lookup (data : HandoutData.t) (frames : list CapturedFrame.t)
  (n : nat) (st : HandoutStep.t) :
  HandoutData.steps data !! n = Some st ->
  stepsWithImages data frames !! n
  = Some {| step := st; image := Js.sort GeminiService.byTimestamp frames !! n |}.
Proof.
  intros Hn. unfold stepsWithImages. rewrite list_lookup_imap, Hn. reflexivity.
Qed.

(** C9.  The display never throws.  It shows one view per step of the
    document, in the document's order; the view of the step at position [n]
    carries the picture of the frame at position [n] of the frames sorted by
    timestamp, and no picture when there are [n] frames or fewer. *)
Theorem display_pairs_steps_with_sorted_frames
  (data : HandoutData.t) (frames : list CapturedFrame.t) :
  exists view,
    HandoutDisplay data frames tt = (Returned view, tt)
    /\ length (stepViews view) = length (HandoutData.steps data)
    /\ Chronological (Js.sort GeminiService.byTimestamp frames)
    /\ Permutation (Js.sort GeminiService.byTimestamp frames) frames
    /\ (forall n st,
          HandoutData.steps data !! n = Some st ->
          exists v,
            stepViews view !! n = Some v
            /\ heading v = HandoutStep.title st
            /\ body v = HandoutStep.description st
            /\ img v = pictureOf st <$> (Js.sort GeminiService.byTimestamp frames !! n)
            /\ ((length frames <= n)%nat -> img v = None)).
Proof.
  exists {| pageTitle := HandoutData.title data;
            pageSummary := HandoutData.summary data;
            stepViews := map viewOf (stepsWithImages data frames) |}.
  split.
  { unfold HandoutDisplay, bind. rewrite renderSteps_returns. reflexivity. }
  cbn [stepViews]. split.
  { unfold stepsWithImages. by rewrite length_map, length_imap. }
  split; [apply SortFacts.sort_chronological|]. split; [apply SortFacts.sort_perm|].
  intros n st Hn.
  exists (viewOf {| step := st; image := Js.sort GeminiService.byTimestamp frames !! n |}).
  split.
  { rewrite list_lookup_fmap, (stepsWithImages_lookup _ _ _ _ Hn). reflexivity. }
  cbn. repeat split.
  intros Hlen. rewrite lookup_ge_None_2; [reflexivity|].
  by rewrite SortFacts.sort_length.
Qed.

(** Three steps and two frames, the frames given out of order. *)
Lemma display_pairs_steps_with_sorted_frames_witness :
  exists view,
    HandoutDisplay Samples.threeSteps [Samples.frameB; Samples.frameA] tt = (Returned view, tt)
    /\ map img (stepViews view)
       = [Some (pictureOf (Samples.step 1) Samples.frameA);
          Some (pictureOf (Samples.step 2) Samples.frameB);
          None].
Proof.
  destruct (display_pairs_steps_with_sorted_frames
              Samples.threeSteps [Samples.frameB; Samples.frameA])
    as (view & Hrun & _).
  exists view. split; [exact Hrun|].
  vm_compute in Hrun. injection Hrun as <-. reflexivity.
Defined.

End DisplayFacts.

(** ** Further properties of the component *)

Module ComponentFacts.
Import FrameCapturer Props Eff ScanFacts TaskFacts.

(** The on-screen log is bounded: after [addLog] it holds at most four
    messages, the newest last, and the console has the line. *)
Theorem addLog_keeps_last_four (msg : string) (s : State) :
  (length (debugLogs (snd (addLog msg s))) <= 4)%nat
  /\ last (debugLogs (snd (addLog msg s))) = Some msg
  /\ console (snd (addLog msg s))
     = console s ++ [ConsoleLog ("[AutoSelect] " ++ msg)%string].
Proof.
  run_state. unfold Js.sliceLast3. split; [|split; [|reflexivity]].
  - rewrite length_app, length_drop. simpl. lia.
  - apply last_snoc.
Qed.

(** Manual edits never reorder the frames they leave in place: removal
    keeps the other frames in their order, and a manual capture only adds
    at the end. *)
Theorem manual_edits_keep_relative_order :
  (forall id s,
      frames (snd (removeFrame id s))
      = filter (fun f => CapturedFrame.id f <> id) (frames s))
  /\ (forall id s, frames (snd (removeFrame id s)) `sublist_of` frames s)
  /\ (forall env s, frames s `prefix_of` frames (snd (captureFrame env s))).
Proof.
  split; [|split].
  - intros id s. unfold removeFrame. run_state. reflexivity.
  - intros id s. unfold removeFrame. run_state. apply sublist_filter.
  - intros env s.
    destruct (OrderFacts.captureFrame_frames env s) as [->|(u & r & ->)];
      [reflexivity|by apply prefix_app_r].
Qed.

(** The deferred task never throws, and when it is over the component is
    out of its analysing state, with an empty status message. *)
Theorem autoCaptureTask_always_settles (env : Env) (D : Q) (s : State) :
  exists s',
    autoCaptureTask env D s = (Returned tt, s')
    /\ isAnalyzing s' = false
    /\ statusMessage s' = EmptyString.
Proof.
  assert (exists r s2, autoCaptureBody env D s = (r, s2)) as (r & s2 & Hrun)
    by (destruct (autoCaptureBody env D s); eauto).
  unfold autoCaptureTask, tryFinally, tryCatch. rewrite Hrun.
  destruct r as [[]|m]; eval_state; eexists; (split; [reflexivity|]); split; reflexivity.
Qed.

(** A scan does not start on a video that is not ready or whose duration
    is unknown, nor when the user declines: one alert at most, and the frame
    list, the video position and the selector are left alone. *)
Theorem handleAutoCapture_guards (env : Env) (s : State) :
  (readyState env < 2)
  \/ duration env = DurationNaN
  \/ duration env = DurationInfinity
  \/ confirmAnswer env = false ->
  frames (snd (handleAutoCapture env s)) = frames s
  /\ seeks (snd (handleAutoCapture env s)) = seeks s
  /\ rankingCalls (snd (handleAutoCapture env s)) = rankingCalls s
  /\ captures (snd (handleAutoCapture env s)) = captures s
  /\ isAnalyzing (snd (handleAutoCapture env s)) = isAnalyzing s.
Proof.
  intros H. unfold handleAutoCapture.
  destruct (negb (videoMounted env) || negb (canvasMounted env)); [by repeat split|].
  destruct (Z.ltb_spec (readyState env) 2); [by repeat split|].
  destruct (duration env) as [| |d]; try (by repeat split).
  destruct H as [H|[H|[H|H]]]; [lia|discriminate|discriminate|].
  rewrite H. by repeat split.
Qed.

(** A video that is not ready: [readyState] is 1. *)
Lemma handleAutoCapture_guards_witness :
  frames (snd (handleAutoCapture
                 (mkEnv true true 1 (DurationSeconds 26) true Samples.exported
                    (fun _ => Selected [0]))
                 Samples.stateABC))
  = frames Samples.stateABC.
Proof.
  apply (handleAutoCapture_guards
           (mkEnv true true 1 (DurationSeconds 26) true Samples.exported
              (fun _ => Selected [0])) Samples.stateABC).
  left. reflexivity.
Defined.

End ComponentFacts.

(** ** The selection request and the errors of the service *)

Module SelectionServiceFacts.
Import GeminiService Props Eff ServiceFacts.

(** What [filterBestFrames] returns for an outcome of the remote call. *)
Lemma filterBestFrames_run env frames s fs :
  clientError env = None ->
  heap s !! frames = Some fs ->
  exists s',
    filterBestFrames env frames s
    = (match generateContent env (selectionRequest fs) with
       | ApiThrows message => Thrown message
       | ApiResponds text =>
           match fst (parseResponse text s) with
           | Returned Json.Null =>
               Thrown "Cannot read properties of null (reading 'selectedIndices')"
           | Returned result => Returned (Json.getField "selectedIndices" result)
           | Thrown message => Thrown message
           end
       end, s')
    /\ heap s' = heap s
    /\ requests s' = requests s ++ [selectionRequest fs].
Proof.
  intros Hclient Hfs. unfold filterBestFrames. run_service.
  rewrite Hclient, Hfs. run_service.
  destruct (generateContent env (selectionRequest fs)) as [m|text].
  - eexists. split; [reflexivity|]. split; reflexivity.
  - rewrite !parseResponse_outcome. cbn [fst].
    destruct text as [[|c t]|]; run_service;
      try (eexists; split; [reflexivity|]; split; reflexivity).
    destruct (Json.parse (String c t)) as [[]|]; run_service;
      eexists; (split; [reflexivity|]); split; reflexivity.
Qed.

(** The frames go to the selector as they are given, without sorting: the
    image at position [i] of the request is the image of the frame at
    position [i] of the array, so an index in the answer names a position of
    the caller's array.  One request is sent, with one part more than there
    are frames, and no array on the heap is touched or added. *)
Theorem filterBestFrames_sends_frames_in_given_order
  (env : Env) (frames : loc) (s : State) (fs : list CapturedFrame.t) :
  clientError env = None ->
  heap s !! frames = Some fs ->
  exists request,
    requests (snd (filterBestFrames env frames s)) = requests s ++ [request]
    /\ (forall i f, fs !! i = Some f -> parts request !! i = Some (imagePart f))
    /\ length (parts request) = S (length fs)
    /\ last (parts request) = Some (Text (selectionPrompt (length fs)))
    /\ heap (snd (filterBestFrames env frames s)) = heap s.
Proof.
  intros Hclient Hfs.
  destruct (filterBestFrames_run env frames s fs Hclient Hfs) as (s' & -> & Hheap & Hreq).
  exists (selectionRequest fs). cbn [snd parts selectionRequest].
  split; [exact Hreq|]. split; [|split; [|split; [|exact Hheap]]].
  - intros i f Hi. rewrite lookup_app_l.
    + by rewrite list_lookup_fmap, Hi.
    + rewrite length_map. by eapply lookup_lt_Some.
  - rewrite length_app, length_map. simpl. lia.
  - apply last_snoc.
Qed.

(** The frames in reverse chronological order, sent as they are. *)
Lemma filterBestFrames_sends_frames_in_given_order_witness :
  exists request,
    requests (snd (filterBestFrames (Samples.answering MoreProps.indicesPayload) 0%nat
                     Samples.serviceState))
    = requests Samples.serviceState ++ [request]
    /\ (forall i f, [Samples.frameC; Samples.frameB; Samples.frameA] !! i = Some f ->
          parts request !! i = Some (imagePart f))
    /\ length (parts request) = S (length [Samples.frameC; Samples.frameB; Samples.frameA])
    /\ last (parts request)
       = Some (Text (selectionPrompt (length [Samples.frameC; Samples.frameB; Samples.frameA])))
    /\ heap (snd (filterBestFrames (Samples.answering MoreProps.indicesPayload) 0%nat
                    Samples.serviceState))
       = heap Samples.serviceState.
Proof.
  apply (filterBestFrames_sends_frames_in_given_order
           (Samples.answering MoreProps.indicesPayload) 0%nat Samples.serviceState
           [Samples.frameC; Samples.frameB; Samples.frameA]); reflexivity.
Defined.

(** What [filterBestFrames] makes of a payload that parses: the member
    [selectedIndices] of an object, whatever it holds; [undefined], and no
    error, when the payload is an object without that member or is not an
    object at all; a [TypeError] when the payload is [null]. *)
Theorem filterBestFrames_returns_the_member
  (env : Env) (frames : loc) (s : State) (fs : list CapturedFrame.t)
  (text : string) (result : Json.value) :
  clientError env = None ->
  heap s !! frames = Some fs ->
  generateContent env (selectionRequest fs) = ApiResponds (Some text) ->
  Json.parse text = Some result ->
  fst (filterBestFrames env frames s)
  = match result with
    | Json.Null => Thrown "Cannot read properties of null (reading 'selectedIndices')"
    | Json.Object members => Returned (Json.lookupMember "selectedIndices" members)
    | _ => Returned None
    end.
Proof.
  intros Hclient Hfs Htext Hparse.
  destruct (filterBestFrames_run env frames s fs Hclient Hfs) as (s' & -> & _).
  rewrite Htext, parseResponse_outcome. cbn [fst].
  destruct text as [|c t]; [discriminate Hparse|]. rewrite Hparse.
  destruct result; reflexivity.
Qed.

(** The payload [{"selectedIndices":[0,2]}]. *)
Lemma filterBestFrames_returns_the_member_witness :
  fst (filterBestFrames (Samples.answering MoreProps.indicesPayload) 0%nat Samples.serviceState)
  = Returned (Some (Json.Array [Json.Number 0; Json.Number 2])).
Proof.
  apply (filterBestFrames_returns_the_member
           (Samples.answering MoreProps.indicesPayload) 0%nat Samples.serviceState
           [Samples.frameC; Samples.frameB; Samples.frameA] MoreProps.indicesPayload
           (Json.Object [("selectedIndices"%string,
                           Json.Array [Json.Number 0; Json.Number 2])]));
    reflexivity.
Defined.

Ltac service_cases env frames s :=
  run_service;
  destruct (clientError env) as [?|]; run_service;
  [|destruct (heap s !! frames) as [?fs|]; run_service].

(** Every error of the two service functions is written to the console
    once, under the function's label, and thrown on with its message
    unchanged; a call that returns writes nothing.  This covers the client
    that cannot be set up, the argument that is no array, the rejected
    request, the empty response, the response that is not JSON and, for
    [filterBestFrames], the read of a member of [null]. *)
Theorem service_errors_logged_and_rethrown (env : Env) (frames : loc) (s : State) :
  console (snd (generateHandoutContent env frames s))
  = console s ++ match fst (generateHandoutContent env frames s) with
                 | Thrown message => [("Error generating handout:"%string, message)]
                 | Returned _ => []
                 end
  /\ console (snd (filterBestFrames env frames s))
     = console s ++ match fst (filterBestFrames env frames s) with
                    | Thrown message => [("Error filtering frames:"%string, message)]
                    | Returned _ => []
                    end.
Proof.
  split.
  - unfold generateHandoutContent. service_cases env frames s; try reflexivity.
    repeat (rewrite lookup_insert_eq; run_service).
    match goal with
    | |- context [generateContent env ?r] => destruct (generateContent env r) as [m|text]
    end; run_service; [reflexivity|].
    rewrite !parseResponse_outcome. cbn [fst snd].
    destruct text as [[|c t]|]; run_service; try reflexivity.
    destruct (Json.parse (String c t)); run_service; [by rewrite app_nil_r|reflexivity].
  - unfold filterBestFrames. service_cases env frames s; try reflexivity.
    match goal with
    | |- context [generateContent env ?r] => destruct (generateContent env r) as [m|text]
    end; run_service; [reflexivity|].
    rewrite !parseResponse_outcome. cbn [fst snd].
    destruct text as [[|c t]|]; run_service; try reflexivity.
    destruct (Json.parse (String c t)) as [[]|]; run_service;
      try (by rewrite app_nil_r); reflexivity.
Qed.

(** Nothing is sent when the client cannot be set up or the argument is no
    array; otherwise exactly one request is sent, whatever comes back. *)
Theorem service_sends_at_most_one_request (env : Env) (frames : loc) (s : State) :
  (clientError env <> None \/ heap s !! frames = None ->
     requests (snd (generateHandoutContent env frames s)) = requests s
     /\ requests (snd (filterBestFrames env frames s)) = requests s)
  /\ (clientError env = None -> is_Some (heap s !! frames) ->
        length (requests (snd (generateHandoutContent env frames s)))
        = S (length (requests s))
        /\ length (requests (snd (filterBestFrames env frames s)))
           = S (length (requests s))).
Proof.
  split.
  - intros H. split.
    + apply generateHandoutContent_early, H.
    + unfold filterBestFrames. run_service.
      destruct (clientError env) as [m|]; run_service; [reflexivity|].
      destruct H as [H|H]; [done|]. rewrite H. run_service. reflexivity.
  - intros Hclient [fs Hfs]. split.
    + destruct (generateHandoutContent_run env frames s fs Hclient Hfs)
        as (s' & -> & _ & Hreq).
      cbn [snd]. rewrite Hreq, length_app. simpl. lia.
    + destruct (filterBestFrames_run env frames s fs Hclient Hfs) as (s' & -> & _ & Hreq).
      cbn [snd]. rewrite Hreq, length_app. simpl. lia.
Qed.

(** No client: nothing is sent.  A client and an array: one request each. *)
Lemma service_sends_at_most_one_request_witness :
  requests (snd (generateHandoutContent (MoreProps.noClient "An API Key must be set")
                   0%nat Samples.serviceState))
  = requests Samples.serviceState
  /\ length (requests (snd (filterBestFrames (MoreProps.rejecting "503") 0%nat
                             Samples.serviceState)))
     = S (length (requests Samples.serviceState)).
Proof.
  split.
  - apply (proj1 (service_sends_at_most_one_request
                    (MoreProps.noClient "An API Key must be set") 0%nat Samples.serviceState)).
    left. discriminate.
  - apply (proj2 (service_sends_at_most_one_request
                    (MoreProps.rejecting "503") 0%nat Samples.serviceState));
      [reflexivity|by eexists].
Defined.

End SelectionServiceFacts.

(** ** Manual capture, the adopted frames and the play control *)

Module CapturerFacts.
Import FrameCapturer Props Eff ScanFacts TaskFacts.

(** A manual capture never throws.  An export error ends as one alert that
    carries the message of the error, with the frame list as it was; a
    capture without a canvas or a 2d context does nothing at all; a capture
    that succeeds adds its frame, stamped with the video's current time, at
    the end, and alerts nobody. *)
Theorem captureFrame_reports_export_errors (env : Env) (s : State) :
  videoMounted env = true ->
  fst (captureFrame env s) = Returned tt
  /\ (forall message,
        canvasMounted env = true -> draw env (captures s) = ExportThrows message ->
        frames (snd (captureFrame env s)) = frames s
        /\ alerts (snd (captureFrame env s))
           = alerts s ++ [("Could not capture frame. " ++ captureErrorPrefix ++ message)%string])
  /\ (yieldsNull env (captures s) = true ->
        frames (snd (captureFrame env s)) = frames s
        /\ alerts (snd (captureFrame env s)) = alerts s)
  /\ (forall dataUrl randomId,
        canvasMounted env = true -> draw env (captures s) = Exported dataUrl randomId ->
        frames (snd (captureFrame env s))
        = frames s ++ [frameAt dataUrl randomId (currentTime s)]
        /\ alerts (snd (captureFrame env s)) = alerts s).
Proof.
  intros Hv. unfold captureFrame, createFrameFromVideo, yieldsNull. rewrite Hv. run_state.
  destruct (canvasMounted env); run_state.
  - destruct (draw env (captures s)) as [|u r|m]; run_state; cbn;
      (split; [reflexivity|]); repeat split; intros;
      try discriminate; try congruence.
    match goal with H : Exported _ _ = Exported _ _ |- _ => by injection H as -> -> end.
  - (split; [reflexivity|]); repeat split; intros; discriminate.
Qed.

(** A capture from a tainted video: one alert, no frame. *)
Lemma captureFrame_reports_export_errors_witness :
  frames (snd (captureFrame MoreProps.envTainted Samples.stateABC)) = frames Samples.stateABC
  /\ alerts (snd (captureFrame MoreProps.envTainted Samples.stateABC))
     = alerts Samples.stateABC
       ++ [("Could not capture frame. " ++ captureErrorPrefix
            ++ "The operation is insecure.")%string].
Proof.
  apply (proj1 (proj2 (captureFrame_reports_export_errors MoreProps.envTainted
                         Samples.stateABC eq_refl))); reflexivity.
Defined.

(** Whatever list the scan loop is given, it leaves the frame list, the
    alerts and the record of the selector's calls alone. *)
Lemma scanLoop_leaves_frames env D : forall remaining acc s,
  frames (snd (scanLoop env D remaining acc s)) = frames s
  /\ alerts (snd (scanLoop env D remaining acc s)) = alerts s
  /\ rankingCalls (snd (scanLoop env D remaining acc s)) = rankingCalls s.
Proof.
  induction remaining as [|i rest IH]; intros acc s; [by repeat split|].
  destruct (capture_cases env (captures s)) as [(u & r & Hc & Hd)|[Hn|Ht]].
  - destruct (scanLoop_step_exported env D i rest acc s u r Hc Hd)
      as (s1 & -> & F1 & A1 & R1 & _).
    destruct (IH (acc ++ [frameAt u r (timestampAt D i)]) s1) as (-> & -> & ->).
    by rewrite F1, A1, R1.
  - destruct (scanLoop_step_null env D i rest acc s Hn) as (s1 & -> & F1 & A1 & R1 & _).
    destruct (IH acc s1) as (-> & -> & ->). by rewrite F1, A1, R1.
  - destruct (scanLoop_step_throws env D i rest acc s Ht)
      as (message & s1 & -> & _ & F1 & A1 & R1 & _).
    cbn [snd]. by rewrite F1, A1, R1.
Qed.

(** Past the guards and the confirmation, the frame list is emptied and
    the deferred task runs. *)
Lemma handleAutoCapture_start env s D :
  videoMounted env = true ->
  canvasMounted env = true ->
  (2 <= readyState env) ->
  duration env = DurationSeconds D ->
  confirmAnswer env = true ->
  exists start,
    handleAutoCapture env s = autoCaptureTask env D start
    /\ frames start = [] /\ alerts start = alerts s
    /\ rankingCalls start = rankingCalls s.
Proof.
  intros Hv Hc Hr Hd Hconfirm. unfold handleAutoCapture.
  rewrite Hv, Hc, Hd, Hconfirm. cbn [negb orb].
  destruct (Z.ltb_spec (readyState env) 2) as [Hlt|_]; [lia|].
  eval_state. eexists. split; [reflexivity|]. by repeat split.
Qed.

(** Once the user has confirmed, auto-select replaces the frame list:
    either the run ends with an alert and an empty frame list, or the scan
    found candidates, the selector answered, and the frame list is what the
    answer selects from the candidates.  The frames the user had are gone in
    both cases; a failure never falls back to them or to the candidates. *)
Theorem handleAutoCapture_replaces_the_frames (env : Env) (s : State) (D : Q) :
  videoMounted env = true ->
  canvasMounted env = true ->
  (2 <= readyState env) ->
  duration env = DurationSeconds D ->
  confirmAnswer env = true ->
  (frames (snd (handleAutoCapture env s)) = []
   /\ exists message,
        alerts (snd (handleAutoCapture env s)) = alerts s ++ [failureAlert message])
  \/ (exists candidates selectedIndices,
        candidates <> []
        /\ filterBestFrames env candidates = Selected selectedIndices
        /\ rankingCalls (snd (handleAutoCapture env s)) = rankingCalls s ++ [candidates]
        /\ frames (snd (handleAutoCapture env s)) = finalFrames candidates selectedIndices
        /\ alerts (snd (handleAutoCapture env s)) = alerts s).
Proof.
  intros Hv Hc Hr Hd Hconfirm.
  destruct (handleAutoCapture_start env s D Hv Hc Hr Hd Hconfirm)
    as (start & -> & F0 & A0 & R0).
  destruct (autoCaptureBody_prelude env D start) as (s0 & Hbody & Fp & Ap & Rp & _).
  destruct (scanLoop_leaves_frames env D (seq 1 steps) [] s0) as (Fs & As & Rs).
  assert (exists r s2, autoCaptureBody env D start = (r, s2)) as (r & s2 & Hrun)
    by (destruct (autoCaptureBody env D start); eauto).
  destruct (autoCaptureTask_result env D start r s2 Hrun)
    as (s3 & lines & -> & F3 & R3 & _ & _ & _ & A3).
  cbn [snd]. rewrite F3, A3, R3. clear F3 A3 R3.
  rewrite Hbody in Hrun. unfold bind in Hrun.
  destruct (scanLoop env D (seq 1 steps) [] s0) as [[candidates|message] s1];
    cbn [snd] in Fs, As, Rs.
  - destruct candidates as [|c cs].
    + rewrite sendToAI_empty in Hrun. injection Hrun as <- <-.
      left. rewrite Fs, Fp, F0, As, Ap, A0. eauto.
    + destruct (sendToAI_nonempty env (c :: cs) s1) as (r' & s2' & lines' & Hsend & R2 & _ & A2 & _ & Hsel);
        [done|].
      rewrite Hsend in Hrun. injection Hrun as <- <-.
      destruct (filterBestFrames env (c :: cs)) as [sel|m] eqn:Hrank.
      * destruct Hsel as [-> F2]. right. exists (c :: cs), sel.
        rewrite F2, A2, As, Ap, A0, R2, Rs, Rp, R0, app_nil_r. by repeat split.
      * destruct Hsel as [-> F2]. left.
        rewrite F2, Fs, Fp, F0, A2, As, Ap, A0. eauto.
  - injection Hrun as <- <-. left. rewrite Fs, Fp, F0, As, Ap, A0. eauto.
Qed.

(** The selector's answer is adopted on top of a list of three frames. *)
Lemma handleAutoCapture_replaces_the_frames_witness :
  (frames (snd (handleAutoCapture Samples.envAllExported Samples.stateABC)) = []
   /\ exists message,
        alerts (snd (handleAutoCapture Samples.envAllExported Samples.stateABC))
        = alerts Samples.stateABC ++ [failureAlert message])
  \/ (exists candidates selectedIndices,
        candidates <> []
        /\ filterBestFrames Samples.envAllExported candidates = Selected selectedIndices
        /\ rankingCalls (snd (handleAutoCapture Samples.envAllExported Samples.stateABC))
           = rankingCalls Samples.stateABC ++ [candidates]
        /\ frames (snd (handleAutoCapture Samples.envAllExported Samples.stateABC))
           = finalFrames candidates selectedIndices
        /\ alerts (snd (handleAutoCapture Samples.envAllExported Samples.stateABC))
           = alerts Samples.stateABC).
Proof.
  apply (handleAutoCapture_replaces_the_frames Samples.envAllExported Samples.stateABC 26%Q);
    try reflexivity. vm_compute. discriminate.
Defined.




(** Only candidates are adopted, and no more of them than the selector
    named: every frame of the curated set is a candidate, the curated set is
    no longer than the selection result, and it is as long when every index is
    in range. *)
Theorem finalFrames_within_candidates
  (candidates : list CapturedFrame.t) (selectedIndices : list Z) :
  (forall f, f ∈ finalFrames candidates selectedIndices -> f ∈ candidates)
  /\ (length (finalFrames candidates selectedIndices) <= length selectedIndices)%nat
  /\ (forallb (inRange (length candidates)) selectedIndices = true ->
        length (finalFrames candidates selectedIndices) = length selectedIndices).
Proof.
  induction selectedIndices as [|idx rest (IHin & IHle & IHeq)].
  - repeat split; [intros f Hf; by apply elem_of_nil in Hf|simpl; lia].
  - rewrite SelectionFacts.finalFrames_cons.
    destruct (Js.index candidates idx) as [g|] eqn:Hidx.
    + apply SelectionFacts.index_Some in Hidx as [_ Hg].
      split; [|split].
      * intros f Hf. apply elem_of_cons in Hf as [->|Hf]; [|by apply IHin].
        by eapply list_elem_of_lookup_2.
      * simpl. lia.
      * intros Hall. simpl in Hall. apply andb_true_iff in Hall as [_ Hall].
        simpl. by rewrite IHeq.
    + split; [exact IHin|]. split; [simpl; lia|].
      intros Hall. simpl in Hall. apply andb_true_iff in Hall as [Hin _].
      destruct (SelectionFacts.index_in_range candidates idx Hin) as (x & Hx & _).
      congruence.
Qed.

(** A selection result with every index in range. *)
Lemma finalFrames_within_candidates_witness :
  length (finalFrames [Samples.frameA; Samples.frameB; Samples.frameC] [2; 0; 2])
  = length [2; 0; 2].
Proof.
  apply (proj2 (proj2 (finalFrames_within_candidates
                         [Samples.frameA; Samples.frameB; Samples.frameC] [2; 0; 2]))).
  reflexivity.
Defined.

(** After [togglePlay], with a video on the page, the play flag and the
    video agree whatever they were before: the flag is flipped, and the video
    is paused exactly when the flag says it is not playing.  Nothing else of
    the component changes; without a video nothing changes at all. *)
Theorem togglePlay_flips_and_agrees (env : Env) (s : State) :
  (videoMounted env = true ->
     isPlaying (snd (PlayControl.togglePlay env s)) = negb (isPlaying s)
     /\ paused (snd (PlayControl.togglePlay env s)) = isPlaying s
     /\ isPlaying (snd (PlayControl.togglePlay env s))
        = negb (paused (snd (PlayControl.togglePlay env s)))
     /\ frames (snd (PlayControl.togglePlay env s)) = frames s
     /\ currentTime (snd (PlayControl.togglePlay env s)) = currentTime s)
  /\ (videoMounted env = false -> snd (PlayControl.togglePlay env s) = s).
Proof.
  unfold PlayControl.togglePlay, PlayControl.play.
  split; intros ->; [|reflexivity].
  run_state. destruct (isPlaying s) eqn:Hp; run_state; cbn; rewrite ?Hp; by repeat split.
Qed.

(** A playing video is paused, and the flag follows. *)
Lemma togglePlay_flips_and_agrees_witness :
  isPlaying (snd (PlayControl.togglePlay Samples.envAllExported MoreProps.statePlaying)) = false
  /\ paused (snd (PlayControl.togglePlay Samples.envAllExported MoreProps.statePlaying)) = true.
Proof.
  destruct (proj1 (togglePlay_flips_and_agrees Samples.envAllExported MoreProps.statePlaying)
              eq_refl) as (H1 & H2 & _).
  split; [exact H1|exact H2].
Defined.

End CapturerFacts.

(** ** Pictures shown, image data and time labels *)

Module FormatFacts.
Import Props MoreProps.
Local Open Scope string_scope.

Lemma splitComma_noComma (s : string) : noComma s = true -> Js.splitComma s = [s].
Proof.
  induction s as [|c s IH]; [reflexivity|]. simpl.
  destruct (Ascii.eqb c ","); [discriminate|]. simpl. intros H. by rewrite IH.
Qed.

Lemma splitComma_prefix (prefix rest : string) :
  noComma prefix = true ->
  Js.splitComma (prefix ++ "," ++ rest) = prefix :: Js.splitComma rest.
Proof.
  induction prefix as [|c p IH]; [reflexivity|]. simpl.
  destruct (Ascii.eqb c ","); [discriminate|]. simpl. intros H. by rewrite (IH H).
Qed.

(** The image data sent for a frame is what stands between the first and
    the second comma of its data URL: the whole payload of a URL of the form
    [prefix,payload], and nothing ([undefined]) for a URL without a comma. *)
Theorem processBase64Image_takes_the_payload :
  (forall url, noComma url = true -> GeminiService.processBase64Image url = None)
  /\ (forall prefix payload,
         noComma prefix = true -> noComma payload = true ->
         GeminiService.processBase64Image (prefix ++ "," ++ payload) = Some payload)
  /\ (forall prefix payload rest,
         noComma prefix = true -> noComma payload = true ->
         GeminiService.processBase64Image (prefix ++ "," ++ payload ++ "," ++ rest)
         = Some payload).
Proof.
  unfold GeminiService.processBase64Image. split; [|split].
  - intros url H. by rewrite splitComma_noComma.
  - intros prefix payload Hp Hq. by rewrite splitComma_prefix, splitComma_noComma.
  - intros prefix payload rest Hp Hq. by rewrite !splitComma_prefix.
Qed.

(** The data URL of a JPEG export. *)
Lemma processBase64Image_takes_the_payload_witness :
  GeminiService.processBase64Image ("data:image/jpeg;base64" ++ "," ++ "AAA") = Some "AAA".
Proof.
  apply (proj1 (proj2 processBase64Image_takes_the_payload)); reflexivity.
Defined.

Lemma Qfloor_unique (x : Q) (z : Z) :
  (inject_Z z <= x)%Q -> (x < inject_Z (z + 1))%Q -> Qfloor x = z.
Proof.
  intros Hle Hlt.
  pose proof (Qfloor_resp_le _ _ Hle) as H1. rewrite Qfloor_Z in H1.
  pose proof (Qfloor_le x) as H2.
  assert (H3 : (inject_Z (Qfloor x) < inject_Z (z + 1))%Q) by (eapply Qle_lt_trans; eauto).
  rewrite <- Zlt_Qlt in H3. lia.
Qed.

Lemma two_digits (s : Z) : 0 <= s < 60 -> String.length (Js.padStart2 (Js.showZ s)) = 2%nat.
Proof.
  intros Hs.
  assert (Hall : forallb (fun n => Nat.eqb (String.length (Js.padStart2 (Js.showZ (Z.of_nat n)))) 2)
                   (seq 0 60) = true) by (vm_compute; reflexivity).
  rewrite forallb_forall in Hall.
  specialize (Hall (Z.to_nat s)). rewrite Z2Nat.id in Hall by lia.
  apply Nat.eqb_eq, Hall, in_seq. lia.
Qed.

(** The label of a frame: for a time that is not negative, the whole
    minutes, a colon, and the remaining whole seconds, below sixty and written
    with two digits. *)
Theorem formatTime_minutes_and_seconds (t : Q) :
  (0 <= t)%Q ->
  exists m s,
    FrameCapturer.formatTime t = Js.showZ m ++ ":" ++ Js.padStart2 (Js.showZ s)
    /\ 0 <= m /\ 0 <= s < 60
    /\ 60 * m + s = Qfloor t
    /\ String.length (Js.padStart2 (Js.showZ s)) = 2%nat.
Proof.
  intros Ht.
  set (m := Qfloor (t / 60)).
  assert (Hm1 : (inject_Z m <= t / 60)%Q) by apply Qfloor_le.
  assert (Hm2 : (t / 60 < inject_Z (m + 1))%Q) by apply Qlt_floor.
  assert (Hdiv : (0 <= t / 60)%Q).
  { apply Qle_shift_div_l; [reflexivity|]. lra. }
  assert (Hm0 : 0 <= m).
  { pose proof (Qfloor_resp_le _ _ Hdiv) as H. exact H. }
  assert (Hlo : (inject_Z (60 * m) <= t)%Q).
  { rewrite inject_Z_mult.
    assert (H : (t == t / 60 * 60)%Q) by (field). rewrite H.
    change (inject_Z 60) with 60%Q. lra. }
  assert (Hhi : (t < inject_Z (60 * m + 60))%Q).
  { rewrite inject_Z_plus, inject_Z_mult. rewrite inject_Z_plus in Hm2.
    assert (H : (t == t / 60 * 60)%Q) by (field). rewrite H.
    change (inject_Z 60) with 60%Q. change (inject_Z 1) with 1%Q in Hm2. lra. }
  set (F := Qfloor t).
  assert (HF1 : (inject_Z F <= t)%Q) by apply Qfloor_le.
  assert (HF2 : (t < inject_Z (F + 1))%Q) by apply Qlt_floor.
  assert (HFlo : 60 * m <= F).
  { pose proof (Qfloor_resp_le _ _ Hlo) as H. by rewrite Qfloor_Z in H. }
  assert (HFhi : F < 60 * m + 60).
  { assert (H : (inject_Z F < inject_Z (60 * m + 60))%Q) by (eapply Qle_lt_trans; eauto).
    by rewrite <- Zlt_Qlt in H. }
  assert (Hs : Qfloor (Js.rem t 60) = F - 60 * m).
  { unfold Js.rem, Js.trunc.
    assert (Hb : Qle_bool 0 (t / 60) = true) by (by apply Qle_bool_iff).
    rewrite Hb. fold m. apply Qfloor_unique.
    - unfold Zminus. rewrite inject_Z_plus, inject_Z_opp, inject_Z_mult.
      change (inject_Z 60) with 60%Q. lra.
    - replace (F - 60 * m + 1) with ((F + 1) + - (60 * m)) by lia.
      rewrite inject_Z_plus, inject_Z_opp, inject_Z_mult.
      change (inject_Z 60) with 60%Q. lra. }
  exists m, (F - 60 * m).
  split; [unfold FrameCapturer.formatTime, Js.floor; fold m; by rewrite Hs|].
  split; [exact Hm0|]. split; [lia|]. split; [lia|].
  apply two_digits. lia.
Qed.

(** Seventy-five seconds and a hundredth. *)
Lemma formatTime_minutes_and_seconds_witness :
  exists m s,
    FrameCapturer.formatTime (7501 # 100) = Js.showZ m ++ ":" ++ Js.padStart2 (Js.showZ s)
    /\ 0 <= m /\ 0 <= s < 60
    /\ 60 * m + s = Qfloor (7501 # 100)
    /\ String.length (Js.padStart2 (Js.showZ s)) = 2%nat.
Proof.
  apply (formatTime_minutes_and_seconds (7501 # 100)). vm_compute. discriminate.
Defined.

End FormatFacts.

Module PictureFacts.
Import HandoutDisplay DisplayProps Props Eff.

Lemma omap_cons_eq {A B : Type} (f : A -> option B) (x : A) (l : list A) :
  omap f (x :: l) = match f x with
                    | Some y => y :: omap f l
                    | None => omap f l
                    end.
Proof. reflexivity. Qed.

Lemma pictures_from (sorted : list CapturedFrame.t) : forall steps k,
  omap (fun v => src <$> img v)
    (map viewOf (imap (fun i st => {| step := st; image := sorted !! (k + i)%nat |}) steps))
  = map CapturedFrame.dataUrl (take (length steps) (drop k sorted)).
Proof.
  induction steps as [|st steps IH]; intros k; [reflexivity|].
  rewrite imap_cons. cbn [map length].
  rewrite (imap_ext _ (fun i st0 => {| step := st0; image := sorted !! (S k + i)%nat |}));
    [|intros i x _; cbn; do 2 f_equal; lia].
  rewrite omap_cons_eq, IH, Nat.add_0_r. unfold viewOf at 1. cbn [img image step].
  destruct (sorted !! k) as [f|] eqn:Hk.
  - rewrite (drop_S _ _ _ Hk). reflexivity.
  - apply lookup_ge_None_1 in Hk.
    rewrite !drop_ge by lia. by rewrite !take_nil.
Qed.

(** The pictures on the page, from top to bottom, are those of the first
    frames in timestamp order, as many as there are steps: with fewer steps
    than frames the latest frames are shown nowhere, and nothing is shown
    twice. *)
Theorem display_shows_the_earliest_frames
  (data : HandoutData.t) (frames : list CapturedFrame.t) :
  exists view,
    HandoutDisplay data frames tt = (Returned view, tt)
    /\ omap (fun v => src <$> img v) (stepViews view)
       = map CapturedFrame.dataUrl
           (take (length (HandoutData.steps data))
                 (Js.sort GeminiService.byTimestamp frames))
    /\ length (omap (fun v => src <$> img v) (stepViews view))
       = Nat.min (length (HandoutData.steps data)) (length frames).
Proof.
  exists {| pageTitle := HandoutData.title data;
            pageSummary := HandoutData.summary data;
            stepViews := map viewOf (stepsWithImages data frames) |}.
  split.
  { unfold HandoutDisplay, bind. rewrite DisplayFacts.renderSteps_returns. reflexivity. }
  cbn [stepViews].
  assert (H : omap (fun v => src <$> img v) (map viewOf (stepsWithImages data frames))
              = map CapturedFrame.dataUrl
                  (take (length (HandoutData.steps data))
                        (Js.sort GeminiService.byTimestamp frames))).
  { unfold stepsWithImages.
    pose proof (pictures_from (Js.sort GeminiService.byTimestamp frames)
                  (HandoutData.steps data) 0) as Hp.
    rewrite drop_0 in Hp. exact Hp. }
  split; [exact H|].
  rewrite H, length_map, length_take, SortFacts.sort_length. reflexivity.
Qed.

End PictureFacts.

(** ** The application *)

Module AppFacts.
Import App Props MoreProps Eff.

Ltac run_app :=
  unfold handle, handleReset, handleGenerate, handleVideoSelected, newArray, inService;
  unfold setAppState, setVideoFile, setFrames, setHandoutData, setError, setService, logError;
  unfold GeminiService.setHeap;
  unfold tryCatch, tryFinally, bind, ret, throw, gets, modify;
  cbn [appState videoFile frames handoutData error service errorsLogged fst snd
       GeminiService.heap GeminiService.requests GeminiService.console].

(** The state [handleGenerate] ends in, by the outcome of the generation. *)
Lemma handleGenerate_run env a s :
  exists r service',
    GeminiService.generateHandoutContent env a (service s) = (r, service')
    /\ handleGenerate env a s
       = (Returned tt,
          match r with
          | Returned data =>
              mkState AppState.PREVIEW (videoFile s) a (Some data) None service'
                (errorsLogged s)
          | Thrown message =>
              mkState AppState.ERROR (videoFile s) a (handoutData s)
                (Some generationFailedMessage) service' (errorsLogged s ++ [message])
          end).
Proof.
  destruct (GeminiService.generateHandoutContent env a (service s)) as [r service'] eqn:Hrun.
  exists r, service'. split; [reflexivity|].
  run_app. rewrite Hrun. destruct r; reflexivity.
Qed.


(** Arrays on the heap outlive a generation. *)
Lemma generateHandoutContent_keeps_arrays env a svc l elements :
  GeminiService.heap svc !! l = Some elements ->
  GeminiService.heap (snd (GeminiService.generateHandoutContent env a svc)) !! l
  = Some elements.
Proof.
  intros Hl.
  destruct (GeminiService.clientError env) as [m|] eqn:Hclient.
  { destruct (ServiceFacts.generateHandoutContent_early env a svc) as [-> _];
      [left; by rewrite Hclient|done]. }
  destruct (GeminiService.heap svc !! a) as [fs|] eqn:Hfs.
  - destruct (ServiceFacts.generateHandoutContent_run env a svc fs Hclient Hfs)
      as (s' & Hrun & Hheap & _).
    rewrite Hrun. cbn [snd]. rewrite Hheap.
    assert (Hne : fresh (dom (GeminiService.heap svc)) <> l).
    { intros <-. apply (is_fresh (dom (GeminiService.heap svc))). apply elem_of_dom. eauto. }
    by rewrite !lookup_insert_ne.
  - destruct (ServiceFacts.generateHandoutContent_early env a svc) as [-> _]; [by right|done].
Qed.


(** Try Again sends the request of the failed attempt once more, image for
    image: the frame list is the array that was handed over, and the failed
    attempt left it as it was. *)
Theorem tryAgain_resends_the_same_request
  (env1 env2 : GeminiService.Env) (a : GeminiService.loc) (s : State)
  (fs : list CapturedFrame.t) (message : string) :
  GeminiService.clientError env1 = None ->
  GeminiService.clientError env2 = None ->
  GeminiService.heap (service s) !! a = Some fs ->
  fst (GeminiService.generateHandoutContent env1 a (service s)) = Thrown message ->
  enabled (snd (handleGenerate env1 a s)) TryAgain = true
  /\ GeminiService.requests (service (snd (handle env2 TryAgain (snd (handleGenerate env1 a s)))))
     = GeminiService.requests (service s)
       ++ [GeminiService.handoutRequest (Js.sort GeminiService.byTimestamp fs);
           GeminiService.handoutRequest (Js.sort GeminiService.byTimestamp fs)]
  /\ frames (snd (handle env2 TryAgain (snd (handleGenerate env1 a s)))) = a.
Proof.
  intros Hc1 Hc2 Hfs Hfail.
  destruct (handleGenerate_run env1 a s) as (r & service1 & Hgen1 & Hrun1).
  rewrite Hgen1 in Hfail. cbn [fst] in Hfail. subst r.
  rewrite Hrun1. cbn [snd].
  set (s1 := mkState AppState.ERROR (videoFile s) a (handoutData s)
               (Some generationFailedMessage) service1 (errorsLogged s ++ [message])).
  split; [reflexivity|].
  assert (Hservice1 : service1 = snd (GeminiService.generateHandoutContent env1 a (service s)))
    by (by rewrite Hgen1).
  assert (Hfs1 : GeminiService.heap service1 !! a = Some fs).
  { rewrite Hservice1. by apply generateHandoutContent_keeps_arrays. }
  assert (Hreq1 : GeminiService.requests service1
                  = GeminiService.requests (service s)
                    ++ [GeminiService.handoutRequest (Js.sort GeminiService.byTimestamp fs)]).
  { destruct (ServiceFacts.generateHandoutContent_run env1 a (service s) fs Hc1 Hfs)
      as (s' & Hrun & _ & Hreq).
    rewrite Hservice1, Hrun. exact Hreq. }
  assert (Htry : handle env2 TryAgain s1 = handleGenerate env2 a s1) by reflexivity.
  rewrite Htry.
  destruct (handleGenerate_run env2 a s1) as (r2 & service2 & Hgen2 & ->).
  destruct (ServiceFacts.generateHandoutContent_run env2 a service1 fs Hc2 Hfs1)
    as (s2' & Hrun2 & _ & Hreq2).
  change (service s1) with service1 in Hgen2. rewrite Hrun2 in Hgen2.
  injection Hgen2 as _ <-.
  destruct r2; cbn [snd service frames]; rewrite Hreq2, Hreq1, <- app_assoc; by split.
Qed.

(** A generation that is rejected, then tried again. *)
Lemma tryAgain_resends_the_same_request_witness :
  GeminiService.requests
    (service (snd (handle (Samples.answering "{}") TryAgain
                     (snd (handleGenerate (MoreProps.rejecting "503") 0%nat
                             (mkState AppState.CAPTURE (Some "clip.mp4"%string) 0%nat None None
                                Samples.serviceState []))))))
  = GeminiService.requests Samples.serviceState
    ++ [GeminiService.handoutRequest
          (Js.sort GeminiService.byTimestamp [Samples.frameC; Samples.frameB; Samples.frameA]);
        GeminiService.handoutRequest
          (Js.sort GeminiService.byTimestamp [Samples.frameC; Samples.frameB; Samples.frameA])].
Proof.
  apply (proj1 (proj2 (tryAgain_resends_the_same_request
           (MoreProps.rejecting "503") (Samples.answering "{}") 0%nat
           (mkState AppState.CAPTURE (Some "clip.mp4"%string) 0%nat None None
              Samples.serviceState [])
           [Samples.frameC; Samples.frameB; Samples.frameA] "503"%string
           eq_refl eq_refl eq_refl eq_refl))).
Defined.







End AppFacts.

(** ** The model on small inputs *)

Module Sanity.
Local Open Scope string_scope.

Example toFixed1_rounds_to_tenths :
  Js.toFixed1 (129 # 13) = "9.9" /\ Js.toFixed1 (1 # 20) = "0.1" /\ Js.toFixed1 26 = "26.0".
Proof. repeat split; reflexivity. Qed.

Example formatTime_minutes_seconds :
  FrameCapturer.formatTime (7501 # 100) = "1:15" /\ FrameCapturer.formatTime 4 = "0:04".
Proof. split; reflexivity. Qed.

Example processBase64Image_takes_second_piece :
  GeminiService.processBase64Image "data:image/jpeg;base64,AAA" = Some "AAA"
  /\ GeminiService.processBase64Image "no comma" = None.
Proof. split; reflexivity. Qed.

Example parse_nested_arrays :
  Json.parse " [1, [2, [-3]], true, null] "
  = Some (Json.Array [Json.Number 1;
                      Json.Array [Json.Number 2; Json.Array [Json.Number (-3)]];
                      Json.Bool true; Json.Null]).
Proof. vm_compute. reflexivity. Qed.

Example parse_number_with_fraction_and_exponent :
  match Json.parse "2.5e1" with
  | Some (Json.Number q) => Qeq_bool q 25
  | _ => false
  end = true.
Proof. vm_compute. reflexivity. Qed.

Example parse_rejects_malformed :
  Json.parse "" = None /\ Json.parse "[1,]" = None /\ Json.parse "01" = None
  /\ Json.parse "{} x" = None.
Proof. repeat split; reflexivity. Qed.

Example sort_is_stable :
  Js.sort GeminiService.byTimestamp
    [Samples.frame "x" 2; Samples.frameA; Samples.frame "y" 2; Samples.frame "z" 1]
  = [Samples.frameA; Samples.frame "z" 1; Samples.frame "x" 2; Samples.frame "y" 2].
Proof. reflexivity. Qed.

End Sanity.
